(** * blast_process.py: chunking, report parsing, result writing and the
      submit / poll / fetch driver, embedded in Rocq.

    Python text is modelled as a list of characters.  The chunking and
    slicing functions are polymorphic in the character type; the functions
    that look at characters (whitespace, markers, numbers) work on [ascii],
    read as the code points 0..255. *)

From Stdlib Require Import String Ascii List ZArith Bool Lia.
From Stdlib Require Import Floats.SpecFloat.
From Stdlib Require DecimalString.
Import ListNotations.
Local Open Scope Z_scope.

(** ** Exceptions and results *)

Inductive exn : Type :=
| ValueError
| IndexError
| UnboundLocalError
| OverflowError
| ZeroDivisionError
| SystemExit (code : Z).

Inductive result (A : Type) : Type :=
| Ok (a : A)
| Raise (e : exn).
Arguments Ok {A} a.
Arguments Raise {A} e.

Definition rbind {A B : Type} (m : result A) (f : A -> result B) : result B :=
  match m with
  | Ok a => f a
  | Raise e => Raise e
  end.

Notation "x <- m ;; k" := (rbind m (fun x => k))
  (at level 61, m at next level, right associativity).

(** ** Python sequences: [len], slices and [range] *)

Definition len {A : Type} (s : list A) : Z := Z.of_nat (length s).

(** An index of a slice with step 1: a negative index counts from the end,
    and the outcome is clamped to [0, len]. *)
Definition clamp_index (n i : Z) : Z :=
  if i <? 0 then Z.max 0 (i + n) else Z.min i n.

(** [s[lo:hi]]; [None] is an omitted bound. *)
Definition py_slice {A : Type} (s : list A) (lo hi : option Z) : list A :=
  let n := len s in
  let lo' := match lo with None => 0 | Some i => clamp_index n i end in
  let hi' := match hi with None => n | Some i => clamp_index n i end in
  firstn (Z.to_nat (hi' - lo')) (skipn (Z.to_nat lo') s).

(** Number of elements of [range(start, stop, step)] for a non-zero step. *)
Definition range_len (start stop step : Z) : Z :=
  if 0 <? step then
    if start <? stop then (stop - start - 1) / step + 1 else 0
  else
    if stop <? start then (start - stop - 1) / (- step) + 1 else 0.

(** [range(start, stop, step)]; a zero step raises ValueError. *)
Definition py_range (start stop step : Z) : result (list Z) :=
  if step =? 0 then Raise ValueError
  else Ok (map (fun k => start + Z.of_nat k * step)
               (seq 0 (Z.to_nat (range_len start stop step)))).

(** ** split_sequence

    [[sequence[i:i + chunk_size] for i in range(0, len(sequence), chunk_size)]] *)
Definition split_sequence {A : Type} (sequence : list A) (chunk_size : Z)
  : result (list (list A)) :=
  idx <- py_range 0 (len sequence) chunk_size ;;
  Ok (map (fun i => py_slice sequence (Some i) (Some (i + chunk_size))) idx).

(** The default of the keyword argument [chunk_size]. *)
Definition default_chunk_size : Z := 1000.

(** ** Python text *)

Definition str : Type := list ascii.

(** A literal of the source. *)
Definition lit (s : string) : str := list_ascii_of_string s.

Definition code (c : ascii) : Z := Z.of_nat (nat_of_ascii c).

(** [c.isspace()] on the code points 0..255: tab, the line breaks 10-13,
    the separators 28-31, space, NEL (133) and the no-break space (160). *)
Definition py_isspace (c : ascii) : bool :=
  let n := code c in
  ((9 <=? n) && (n <=? 13)) || ((28 <=? n) && (n <=? 32))
  || (n =? 133) || (n =? 160).

Fixpoint lstrip (s : str) : str :=
  match s with
  | c :: s' => if py_isspace c then lstrip s' else s
  | [] => []
  end.

Definition rstrip (s : str) : str := rev (lstrip (rev s)).

(** [s.strip()]: whitespace goes at both ends. *)
Definition strip (s : str) : str := rstrip (lstrip s).

Fixpoint startswith (s p : str) : bool :=
  match p, s with
  | [], _ => true
  | a :: p', b :: s' => Ascii.eqb a b && startswith s' p'
  | _ :: _, [] => false
  end.

(** [sub in s] *)
Fixpoint contains (sub s : str) : bool :=
  startswith s sub ||
  match s with
  | [] => false
  | _ :: s' => contains sub s'
  end.

(** [s.split(sep)] for a non-empty [sep]: the occurrences of [sep] are
    found left to right without overlap.  [skip] counts the characters of
    an occurrence still to pass, [acc] is the piece read so far, reversed. *)
Fixpoint split_go (sep s : str) (skip : nat) (acc : str) : list str :=
  match s with
  | [] => [rev acc]
  | c :: s' =>
      match skip with
      | S k => split_go sep s' k acc
      | O =>
          if startswith s sep
          then rev acc :: split_go sep s' (pred (length sep)) []
          else split_go sep s' O (c :: acc)
      end
  end.

Definition split (s sep : str) : result (list str) :=
  match sep with
  | [] => Raise ValueError
  | _ => Ok (split_go sep s O [])
  end.

(** [l[i]] for a non-negative constant index. *)
Definition item {A : Type} (l : list A) (i : nat) : result A :=
  match nth_error l i with
  | Some a => Ok a
  | None => Raise IndexError
  end.

(** Line boundaries of [splitlines] among the code points 0..255. *)
Definition is_linebreak (c : ascii) : bool :=
  let n := code c in
  ((10 <=? n) && (n <=? 13)) || ((28 <=? n) && (n <=? 30)) || (n =? 133).

(** [s.splitlines()]: the terminators are dropped, CR LF is one
    terminator, and a final terminator opens no further line. *)
Fixpoint splitlines_go (s : str) (acc : str) : list str :=
  match s with
  | [] => match acc with [] => [] | _ => [rev acc] end
  | c :: s' =>
      if is_linebreak c then
        rev acc ::
        match s' with
        | d :: s'' =>
            if (code c =? 13) && (code d =? 10)
            then splitlines_go s'' []
            else splitlines_go s' []
        | [] => []
        end
      else splitlines_go s' (c :: acc)
  end.

Definition splitlines (s : str) : list str := splitlines_go s [].

(** ** Numbers *)

(** Python's [float]: IEEE 754 binary64, rounding to nearest, ties to even. *)
Definition float : Type := spec_float.
Definition prec : Z := 53.
Definition emax : Z := 1024.

(** The float nearest to an integer (exact for the constants of the program). *)
Definition float_of_Z (z : Z) : float := binary_normalize prec emax z 0 false.

(** The float nearest to the quotient [a / b] of two positive integers of
    any size, with the sign [neg]; an infinity when it is out of range. *)
Definition round_quotient (neg : bool) (a b : positive) : float :=
  let '(m, e, l) := SFdiv_core_binary prec emax (Zpos a) 0 (Zpos b) 0 in
  binary_round_aux prec emax neg m e l.

(** [a / b] on two ints: the correctly rounded quotient. *)
Definition int_true_divide (a b : Z) : result float :=
  if b =? 0 then Raise ZeroDivisionError
  else if a =? 0 then Ok (S754_zero (b <? 0))
  else
    match round_quotient (xorb (a <? 0) (b <? 0))
                         (Z.to_pos (Z.abs a)) (Z.to_pos (Z.abs b)) with
    | S754_infinity _ => Raise OverflowError
    | q => Ok q
    end.

Definition float_mul (x y : float) : float := SFmul prec emax x y.

(** [x > y]; false when either side is a NaN. *)
Definition float_gt (x y : float) : bool := SFltb y x.

Definition digit_of (c : ascii) : option Z :=
  let n := code c in
  if (48 <=? n) && (n <=? 57) then Some (n - 48) else None.

(** [digitpart ::= digit (["_"] digit)*], read greedily from the front of
    [s]: the value so far [acc], the number [n] of digits read, and the
    text that follows. An underscore is passed only between two digits. *)
Fixpoint digits_go (s : str) (acc : Z) (n : nat) : Z * nat * str :=
  match s with
  | c :: s' =>
      match digit_of c with
      | Some d => digits_go s' (10 * acc + d) (S n)
      | None =>
          match n, s' with
          | S _, c' :: _ =>
              if (code c =? 95) && (match digit_of c' with Some _ => true | None => false end)
              then digits_go s' acc n
              else (acc, n, s)
          | _, _ => (acc, n, s)
          end
      end
  | [] => (acc, n, s)
  end.

Definition digitpart (s : str) : option (Z * nat * str) :=
  let '(v, n, r) := digits_go s 0 O in
  match n with
  | O => None
  | S _ => Some (v, n, r)
  end.

(** An optional sign: [true] for "-". *)
Definition sign_split (s : str) : bool * str :=
  match s with
  | c :: s' =>
      if code c =? 45 then (true, s')
      else if code c =? 43 then (false, s')
      else (false, s)
  | [] => (false, [])
  end.

(** [int(s)] in base 10, for a text [s] that [strip()] has been applied to,
    as at each call of the program (no whitespace is left to skip).  The
    bound that recent interpreters put on the number of digits is left out. *)
Definition py_int (s : str) : result Z :=
  let (neg, body) := sign_split s in
  match digitpart body with
  | Some (v, _, []) => Ok (if neg then - v else v)
  | _ => Raise ValueError
  end.

Definition lower (c : ascii) : ascii :=
  if (65 <=? code c) && (code c <=? 90)
  then ascii_of_nat (nat_of_ascii c + 32)
  else c.

(** Equality with a lower-case word, ignoring case. *)
Definition ieq (s : str) (w : string) : bool :=
  if list_eq_dec ascii_dec (map lower s) (lit w) then true else false.

(** [exponent ::= ("e" | "E") [sign] digitpart], or nothing, up to the end. *)
Definition exponent_part (s : str) : option Z :=
  match s with
  | [] => Some 0
  | c :: s' =>
      if code (lower c) =? 101 then
        let (neg, body) := sign_split s' in
        match digitpart body with
        | Some (v, _, []) => Some (if neg then - v else v)
        | _ => None
        end
      else None
  end.

(** [number [exponent]] with
    [number ::= [digitpart] "." digitpart | digitpart ["."]]:
    an integer mantissa [m] and a decimal exponent [e], for [m * 10^e]. *)
Definition float_number (s : str) : option (Z * Z) :=
  match digitpart s with
  | Some (i, _, r) =>
      match r with
      | c :: r' =>
          if code c =? 46 then
            match digitpart r' with
            | Some (f, nf, r'') =>
                match exponent_part r'' with
                | Some e => Some (i * 10 ^ Z.of_nat nf + f, e - Z.of_nat nf)
                | None => None
                end
            | None =>
                match exponent_part r' with
                | Some e => Some (i, e)
                | None => None
                end
            end
          else
            match exponent_part r with
            | Some e => Some (i, e)
            | None => None
            end
      | [] => Some (i, 0)
      end
  | None =>
      match s with
      | c :: r =>
          if code c =? 46 then
            match digitpart r with
            | Some (f, nf, r') =>
                match exponent_part r' with
                | Some e => Some (f, e - Z.of_nat nf)
                | None => None
                end
            | None => None
            end
          else None
      | [] => None
      end
  end.

(** The float nearest to [m * 10^e], for [0 <= m]. *)
Definition float_of_decimal (neg : bool) (m e : Z) : float :=
  match m with
  | Zpos p =>
      if 0 <=? e
      then round_quotient neg (Z.to_pos (m * 10 ^ e)) 1
      else round_quotient neg p (Z.to_pos (10 ^ (- e)))
  | _ => S754_zero neg
  end.

(** [float(s)], for a text [s] that [strip()] has been applied to:
    [[sign] (number [exponent] | "inf" | "infinity" | "nan")]. *)
Definition py_float (s : str) : result float :=
  let (neg, body) := sign_split s in
  if ieq body "inf" || ieq body "infinity" then Ok (S754_infinity neg)
  else if ieq body "nan" then Ok S754_nan
  else
    match float_number body with
    | Some (m, e) => Ok (float_of_decimal neg m e)
    | None => Raise ValueError
    end.

(** ** The two report parsers *)

(** [for x in l: body], threading the local variables [st]. *)
Fixpoint for_each {S A : Type} (body : S -> A -> result S) (l : list A) (st : S)
  : result S :=
  match l with
  | [] => Ok st
  | a :: l' => st' <- body st a ;; for_each body l' st'
  end.

Definition iterations_marker : str := lit "<BlastOutput_iterations>".
Definition identity_marker : str := lit "<Hsp_identity>".
Definition align_len_marker : str := lit "<Hsp_align-len>".
Definition bit_score_marker : str := lit "<Hsp_bit-score>".

(** [line.split(">")[1].split("<")[0].strip()] *)
Definition field (line : str) : result str :=
  a <- split line (lit ">") ;;
  b <- item a 1 ;;
  c <- split b (lit "<") ;;
  d <- item c 0 ;;
  Ok (strip d).

Definition int_field (line : str) : result Z := t <- field line ;; py_int t.
Definition float_field (line : str) : result float := t <- field line ;; py_float t.

(** [percent_identity > 99 and bit_score > 54998] *)
Definition qualifies (percent_identity bit_score : float) : bool :=
  float_gt percent_identity (float_of_Z 99)
  && float_gt bit_score (float_of_Z 54998).

Definition zero : float := S754_zero false.

Module Simple.

(** The local variables of [parse_blast_result]; [identity] has no value
    until the first identity line. *)
Record locals : Type := Locals {
  matches : list Z;
  percent_identity : float;
  bit_score : float;
  align_len : Z;
  identity : option Z
}.

Definition init : locals := Locals [] zero zero 0 None.

(** The body of the loop: three independent [if]s. *)
Definition body (st : locals) (line0 : str) : result locals :=
  let line := strip line0 in
  st <- (if contains identity_marker line
         then v <- int_field line ;;
              Ok (Locals (matches st) (percent_identity st) (bit_score st)
                         (align_len st) (Some v))
         else Ok st) ;;
  st <- (if contains align_len_marker line
         then v <- int_field line ;;
              Ok (Locals (matches st) (percent_identity st) (bit_score st)
                         v (identity st))
         else Ok st) ;;
  if contains bit_score_marker line then
    b <- float_field line ;;
    p <- (if align_len st >? 0 then
            i <- match identity st with
                 | Some i => Ok i
                 | None => Raise UnboundLocalError
                 end ;;
            q <- int_true_divide i (align_len st) ;;
            Ok (float_mul q (float_of_Z 100))
          else Ok (percent_identity st)) ;;
    Ok (Locals (if qualifies p b then matches st ++ [1] else matches st)
               p b (align_len st) (identity st))
  else Ok st.

End Simple.

Definition parse_blast_result (xml_result : str) : result Z :=
  if negb (contains iterations_marker xml_result) then Ok (-1)
  else
    st <- for_each Simple.body (splitlines xml_result) Simple.init ;;
    Ok (match Simple.matches st with [] => -1 | _ => 1 end).

Module Detailed.

(** The local variables of [parse_blast_result_detailed]; [align_len] is
    [None] until the first alignment-length line. *)
Record locals : Type := Locals {
  matches : list Z;
  percent_identity : float;
  bit_score : float;
  align_len : option Z;
  identity : Z
}.

Definition init : locals := Locals [] zero zero None 0.

(** [align_len and align_len > 0] as a condition. *)
Definition usable (align_len : option Z) : bool :=
  match align_len with
  | None => false
  | Some a => negb (a =? 0) && (a >? 0)
  end.

(** The body of the loop: one [if] / [elif] / [elif] chain. *)
Definition body (st : locals) (line0 : str) : result locals :=
  let line := strip line0 in
  if contains identity_marker line then
    v <- int_field line ;;
    Ok (Locals (matches st) (percent_identity st) (bit_score st)
               (align_len st) v)
  else if contains align_len_marker line then
    v <- int_field line ;;
    Ok (Locals (matches st) (percent_identity st) (bit_score st)
               (Some v) (identity st))
  else if contains bit_score_marker line then
    b <- float_field line ;;
    p <- (if usable (align_len st) then
            q <- int_true_divide (identity st)
                                 (match align_len st with Some a => a | None => 0 end) ;;
            Ok (float_mul q (float_of_Z 100))
          else Ok (percent_identity st)) ;;
    Ok (Locals (if qualifies p b then matches st ++ [1] else matches st)
               p b (align_len st) (identity st))
  else Ok st.

End Detailed.

Definition parse_blast_result_detailed (xml_result : str)
  : result (Z * float * float) :=
  if negb (contains iterations_marker xml_result) then Ok (-1, zero, zero)
  else
    st <- for_each Detailed.body (splitlines xml_result) Detailed.init ;;
    let best_match_id := match Detailed.matches st with [] => -1 | _ => 1 end in
    Ok (best_match_id, Detailed.percent_identity st, Detailed.bit_score st).

(** ** process_sequence *)

Definition newline : ascii := ascii_of_nat 10.

(** The lines of a file opened in text mode, as [for line in file] yields
    them: CR LF and a lone CR are read as "\n", and each line keeps its
    "\n" (the last line has none when the file does not end with one). *)
Fixpoint file_lines_go (s : str) (acc : str) : list str :=
  match s with
  | [] => match acc with [] => [] | _ => [rev acc] end
  | c :: s' =>
      if code c =? 10 then rev (newline :: acc) :: file_lines_go s' []
      else if code c =? 13 then
        rev (newline :: acc) ::
        match s' with
        | d :: s'' =>
            if code d =? 10 then file_lines_go s'' [] else file_lines_go s' []
        | [] => []
        end
      else file_lines_go s' (c :: acc)
  end.

Definition file_lines (content : str) : list str := file_lines_go content [].

(** The body of the reading loop on the locals [(sequence_id, sequence)]. *)
Definition read_line (st : str * str) (line : str) : str * str :=
  let (sequence_id, sequence) := st in
  if startswith line (lit ">")
  then (py_slice (strip line) (Some 1) None, sequence)
  else (sequence_id, sequence ++ strip line).

(** [(sequence_id, sequence)] when the loop over the file ends. *)
Definition read_sequence (content : str) : str * str :=
  fold_left read_line (file_lines content) ([], []).

(** The default of the keyword argument [max_sequence_length]. *)
Definition default_max_sequence_length : Z := 5000.

(** [input_file] is the text of the file at the given path, [None] when
    there is no such file ([FileNotFoundError], answered by [exit(1)]).
    A path that exists but cannot be opened or read as text (a directory, a
    file without read permission, bytes that do not decode) raises an
    exception that the function does not catch; such inputs are outside
    this embedding, which speaks of files that are read as text and of
    missing files only. *)
Definition process_sequence (input_file : option str) (max_sequence_length : Z)
  : result (list str) :=
  match input_file with
  | None => Raise (SystemExit 1)
  | Some content =>
      let sequence := snd (read_sequence content) in
      let sequence := py_slice sequence None (Some max_sequence_length) in
      split_sequence sequence default_chunk_size
  end.

(** ** write_results_to_file *)

(** [str(n)] of an int. *)
Definition str_of_Z (n : Z) : str :=
  lit (DecimalString.NilZero.string_of_int (Z.to_int n)).

(** [f"{sequence_number},{part},{best_match_id}\n"] *)
Definition output_line (sequence_number : Z) (part : str) (best_match_id : Z) : str :=
  str_of_Z sequence_number ++ lit "," ++ part ++ lit "," ++ str_of_Z best_match_id
  ++ [newline].

(** [[chunk[i:i + 20] for i in range(0, len(chunk), 20)]] *)
Definition chunk_parts (chunk : str) : result (list str) :=
  idx <- py_range 0 (len chunk) 20 ;;
  Ok (map (fun i => py_slice chunk (Some i) (Some (i + 20))) idx).

(** The inner loop: one [file.write] per part; the locals are the writes
    made so far and [sequence_number]. *)
Definition write_part (best_match_id : Z) (st : list str * Z) (part : str)
  : list str * Z :=
  let (file, sequence_number) := st in
  (file ++ [output_line sequence_number part best_match_id], sequence_number + 1).

(** The outer loop over [zip(chunks, results)].  The outcome is the list of
    the writes made to the file, and the exception that ended the loop
    early, if any (the file is closed with what was written until then). *)
Fixpoint write_loop (pairs : list (str * str)) (file : list str) (sequence_number : Z)
  : list str * option exn :=
  match pairs with
  | [] => (file, None)
  | (chunk, result) :: rest =>
      match parse_blast_result_detailed result with
      | Raise e => (file, Some e)
      | Ok (best_match_id, percent_identity, bit_score) =>
          match chunk_parts chunk with
          | Raise e => (file, Some e)
          | Ok parts =>
              let (file', sequence_number') :=
                fold_left (write_part best_match_id) parts (file, sequence_number) in
              write_loop rest file' sequence_number'
          end
      end
  end.

Definition write_results_to_file (chunks results : list str)
  : list str * option exn :=
  write_loop (combine chunks results) [] 1.

(** ** The remote service and the driver

    The program talks to the service through blocking HTTP requests.  A run
    is driven by a script: the bodies of the responses the service gives, in
    the order the requests are made.  A finite script that is used up while
    a request waits for its response leaves the run [Pending]; the trace
    lists what the program did until then.  Failures of the transport
    (exceptions of [requests]) are outside the model. *)

Inductive request : Type :=
| POST (url : str) (data : list (str * str))
| GET (url : str) (params : list (str * str)).

Inductive event : Type :=
| Http (req : request) (response : option str)
| Sleep (seconds : Z)
| Print (msg : str)
| WriteFile (name : str) (writes : list str).

Inductive outcome (A : Type) : Type :=
| Done (a : A) (rest : list str)
| Failed (e : exn)
| Pending.
Arguments Done {A} a rest.
Arguments Failed {A} e.
Arguments Pending {A}.

Definition io (A : Type) : Type := list str -> list event * outcome A.

Definition ret {A : Type} (a : A) : io A := fun script => ([], Done a script).

Definition bind {A B : Type} (m : io A) (f : A -> io B) : io B :=
  fun script =>
    match m script with
    | (t, Done a rest) => let (t', o) := f a rest in (t ++ t', o)
    | (t, Failed e) => (t, Failed e)
    | (t, Pending) => (t, Pending)
    end.

Notation "x <~ m ;; k" := (bind m (fun x => k))
  (at level 61, m at next level, right associativity).
Notation "m ;;; k" := (bind m (fun _ => k))
  (at level 61, right associativity).

Definition emit (e : event) : io unit := fun script => ([e], Done tt script).

(** A blocking request: the next response of the script is its answer. *)
Definition http (req : request) : io str :=
  fun script =>
    match script with
    | [] => ([Http req None], Pending)
    | r :: rest => ([Http req (Some r)], Done r rest)
    end.

(** An exception of a pure computation ends the run. *)
Definition lift {A : Type} (r : result A) : io A :=
  fun script =>
    match r with
    | Ok a => ([], Done a script)
    | Raise e => ([], Failed e)
    end.

Definition blast_url : str := lit "https://blast.ncbi.nlm.nih.gov/Blast.cgi".

Definition submit_blast_query (sequence database program : str) : io (option str) :=
  let params := [(lit "CMD", lit "Put"); (lit "DATABASE", database);
                 (lit "PROGRAM", program); (lit "QUERY", sequence);
                 (lit "FORMAT_TYPE", lit "XML")] in
  text <~ http (POST blast_url params) ;;
  if contains (lit "RID = ") text then
    rid <~ lift (a <- split text (lit "RID = ") ;;
                 b <- item a 1 ;;
                 c <- split b [newline] ;;
                 d <- item c 0 ;;
                 Ok (strip d)) ;;
    ret (Some rid)
  else ret None.

(** What [check_blast_status] makes of a response body. *)
Definition status_of (text : str) : option bool :=
  if contains (lit "Status=READY") text then Some true
  else if contains (lit "Status=WAITING") text then Some false
  else None.

Definition check_blast_status (rid : str) : io (option bool) :=
  let params := [(lit "CMD", lit "Get"); (lit "RID", rid);
                 (lit "FORMAT_TYPE", lit "Text"); (lit "INFO", lit "STATUS")] in
  text <~ http (GET blast_url params) ;;
  ret (status_of text).

Definition fetch_blast_results (rid : str) : io str :=
  let params := [(lit "CMD", lit "Get"); (lit "RID", rid);
                 (lit "FORMAT_TYPE", lit "XML")] in
  http (GET blast_url params).

Definition status_error_msg : str :=
  lit "Error occurred while checking status for chunk.".
Definition submit_error_msg : str :=
  lit "Error: Failed to submit BLAST query for chunk.".
Definition usage_error_msg : str :=
  lit "Error: No file path provided. Please pass the file path as an argument.".

(** [while True:] of the driver, at most [fuel] iterations. *)
Fixpoint poll (fuel : nat) (rid : str) : io unit :=
  match fuel with
  | O => fun _ => ([], Pending)
  | S fuel' =>
      status <~ check_blast_status rid ;;
      match status with
      | Some true => ret tt
      | Some false => emit (Sleep 5) ;;; poll fuel' rid
      | None => emit (Print status_error_msg) ;;; poll fuel' rid
      end
  end.

(** Each iteration takes one response of the script, so one iteration more
    than the script has responses is as good as no bound. *)
Definition poll_until_ready (rid : str) : io unit :=
  fun script => poll (S (length script)) rid script.

(** [not rid] *)
Definition falsy (rid : option str) : bool :=
  match rid with
  | None => true
  | Some [] => true
  | Some (_ :: _) => false
  end.

(** The body of [for chunk in chunks:]; gives the new [results]. *)
Definition process_chunk (chunk : str) (results : list str) : io (list str) :=
  rid <~ submit_blast_query chunk (lit "nt") (lit "blastn") ;;
  if falsy rid then
    emit (Print submit_error_msg) ;;; ret results
  else
    let rid := match rid with Some r => r | None => [] end in
    poll_until_ready rid ;;;
    report <~ fetch_blast_results rid ;;
    ret (results ++ [report]).

Fixpoint for_chunks (chunks : list str) (results : list str) : io (list str) :=
  match chunks with
  | [] => ret results
  | chunk :: rest =>
      results' <~ process_chunk chunk results ;;
      for_chunks rest results'
  end.

(** The script under [if __name__ == "__main__":].  [argv] is [sys.argv],
    [fs] the text of the file at a path, and [now] the outcome of
    [datetime.now().strftime("%Y%m%d_%H%M%S")]. *)
Definition main (argv : list str) (fs : str -> option str) (now : str) : io unit :=
  if len argv <? 2 then
    emit (Print usage_error_msg) ;;; lift (Raise (SystemExit 1))
  else
    input_file <~ lift (item argv 1) ;;
    chunks <~ lift (process_sequence (fs input_file) default_max_sequence_length) ;;
    results <~ for_chunks chunks [] ;;
    let output_file := lit "blast_results_" ++ now ++ lit ".txt" in
    let (file, err) := write_results_to_file chunks results in
    emit (WriteFile output_file file) ;;;
    match err with
    | Some e => lift (Raise e)
    | None => emit (Print output_file)
    end.

(** ** Auxiliary notions of the statements *)

(** The first [m] chunks of width [c], written with [firstn] and [skipn]. *)
Definition pieces {A : Type} (s : list A) (c m : nat) : list (list A) :=
  map (fun k => firstn c (skipn (k * c) s)) (seq 0 m).

(** ** Sample reports *)

Definition nl : string := String (ascii_of_nat 10) EmptyString.

(** A report with the iterations marker and one record: identity count,
    alignment length and bit score, one field a line, in that order. *)
Definition one_record_report (identity align_len bit_score : string) : str :=
  lit ("<BlastOutput_iterations>" ++ nl
       ++ "  <Hsp_identity>" ++ identity ++ "</Hsp_identity>" ++ nl
       ++ "  <Hsp_align-len>" ++ align_len ++ "</Hsp_align-len>" ++ nl
       ++ "  <Hsp_bit-score>" ++ bit_score ++ "</Hsp_bit-score>" ++ nl
       ++ "</BlastOutput_iterations>" ++ nl).

(** The same record, but no iterations marker around it. *)
Definition record_without_marker : str :=
  lit ("<Hsp_identity>100</Hsp_identity>" ++ nl
       ++ "<Hsp_align-len>100</Hsp_align-len>" ++ nl
       ++ "<Hsp_bit-score>54999</Hsp_bit-score>" ++ nl).

(** ** Notions of the statements on the loader *)

(** [line.startswith(">")] *)
Definition is_header (line : str) : bool := startswith line (lit ">").

(** The non-header lines stripped of trailing whitespace only, joined: the
    raw sequence if leading whitespace were kept. *)
Definition kept_leading_whitespace (content : str) : str :=
  concat (map rstrip (filter (fun l => negb (is_header l)) (file_lines content))).

(** The first character of a text, if any, is no whitespace. *)
Definition starts_tight (s : str) : Prop :=
  match s with
  | [] => True
  | c :: _ => py_isspace c = false
  end.

(** ** Notions of the statements on the driver *)

(** The three kinds of request, as events of a trace. *)
Definition submission (chunk : str) (response : option str) : event :=
  Http (POST blast_url
          [(lit "CMD", lit "Put"); (lit "DATABASE", lit "nt");
           (lit "PROGRAM", lit "blastn"); (lit "QUERY", chunk);
           (lit "FORMAT_TYPE", lit "XML")]) response.

Definition status_poll (rid : str) (response : option str) : event :=
  Http (GET blast_url
          [(lit "CMD", lit "Get"); (lit "RID", rid);
           (lit "FORMAT_TYPE", lit "Text"); (lit "INFO", lit "STATUS")]) response.

Definition results_fetch (rid : str) (response : option str) : event :=
  Http (GET blast_url
          [(lit "CMD", lit "Get"); (lit "RID", rid);
           (lit "FORMAT_TYPE", lit "XML")]) response.

(** An event that is not the fetch of a report. *)
Definition not_a_fetch (e : event) : Prop :=
  forall rid response, e <> results_fetch rid response.

(** The events with which [t] goes on after [first]. *)
Definition followed_by (first : list event) (run : list event * outcome unit)
  : list event * outcome unit :=
  (first ++ fst run, snd run).

(** [n] polls in a row that are answered by [text] and reported as errors. *)
Fixpoint unknown_polls (rid text : str) (n : nat) : list event :=
  match n with
  | O => []
  | S n' => status_poll rid (Some text) :: Print status_error_msg
            :: unknown_polls rid text n'
  end.

(** A file of one unlabelled line of 30 characters. *)
Definition thirty : str := lit "ACGTACGTACGTACGTACGTACGTACGTAC".

(** The job identifier that [submit_blast_query] reads in a response:
    [text.split("RID = ")[1].split("\n")[0].strip()]. *)
Definition rid_of (text : str) : str :=
  strip (hd [] (split_go [newline] (nth 1 (split_go (lit "RID = ") text O []) []) O [])).

(** In the trace [t], each fetch of a report comes right after a poll of
    the same job that was answered Ready. *)
Definition fetch_follows_ready (t : list event) : Prop :=
  forall pre rid response post,
    t = pre ++ results_fetch rid response :: post ->
    exists pre' text,
      pre = pre' ++ [status_poll rid (Some text)] /\ status_of text = Some true.

(** The trace [t] does not begin with a fetch. *)
Definition starts_clean (t : list event) : Prop :=
  match t with
  | [] => True
  | e :: _ => not_a_fetch e
  end.

(** [f"blast_results_{current_datetime}.txt"] *)
Definition output_file_name (now : str) : str :=
  lit "blast_results_" ++ now ++ lit ".txt".

(** ** Notions of the statements on the writer *)

(** The 20-character units of a chunk. *)
Definition units (chunk : str) : list str :=
  pieces chunk 20 (Z.to_nat (range_len 0 (len chunk) 20)).

(** The rows of the output: each unit of each chunk, in order, with the
    match id of its chunk. *)
Definition rows (chunks : list str) (ids : list Z) : list (str * Z) :=
  flat_map (fun ci => map (fun unit => (unit, snd ci)) (units (fst ci)))
           (combine chunks ids).

(** The lines for the rows, numbered one by one from [n]. *)
Fixpoint numbered (n : Z) (rs : list (str * Z)) : list str :=
  match rs with
  | [] => []
  | (part, id) :: rest => output_line n part id :: numbered (n + 1) rest
  end.

(** C4 as it is worded: whatever the reports are, the file gets one line
    for each unit of each chunk, numbered from 1, with one match id, 1 or
    -1, for each chunk. *)
Definition one_line_per_unit (chunks results : list str) : Prop :=
  exists ids,
    length ids = length chunks
    /\ Forall (fun id => id = 1 \/ id = -1) ids
    /\ fst (write_results_to_file chunks results) = numbered 1 (rows chunks ids).

(** A report with the marker and an identity field that is no number. *)
Definition unreadable_report : str :=
  lit ("<BlastOutput_iterations>" ++ nl ++ "<Hsp_identity>n/a</Hsp_identity>" ++ nl).

Definition chunk25a : str := lit "AAAAAAAAAAAAAAAAAAAAAAAAA".
Definition chunk25c : str := lit "CCCCCCCCCCCCCCCCCCCCCCCCC".

(** ** Notions of the statements on the parsers *)

(** Which branch of the [if] / [elif] / [elif] chain of
    [parse_blast_result_detailed] takes a line.  A bit-score line holds the
    bit-score marker and neither of the two other markers. *)
Inductive line_kind : Type :=
| IdentityLine
| AlignLenLine
| BitScoreLine
| OtherLine.

Definition kind (line0 : str) : line_kind :=
  let line := strip line0 in
  if contains identity_marker line then IdentityLine
  else if contains align_len_marker line then AlignLenLine
  else if contains bit_score_marker line then BitScoreLine
  else OtherLine.

Definition is_bit_score_line (line : str) : bool :=
  match kind line with
  | BitScoreLine => true
  | _ => false
  end.

(** The numbers read on the identity lines among [lines], in order. *)
Definition identities_seen (lines : list str) : list Z :=
  flat_map (fun l => match kind l, int_field (strip l) with
                     | IdentityLine, Ok v => [v]
                     | _, _ => []
                     end) lines.

(** The numbers read on the alignment-length lines among [lines], in order. *)
Definition align_lens_seen (lines : list str) : list Z :=
  flat_map (fun l => match kind l, int_field (strip l) with
                     | AlignLenLine, Ok v => [v]
                     | _, _ => []
                     end) lines.

(** The most recently seen identity count (0 before the first one) and
    alignment length ([None] before the first one). *)
Definition recent_identity (lines : list str) : Z := last (identities_seen lines) 0.
Definition recent_align_len (lines : list str) : option Z :=
  last (map Some (align_lens_seen lines)) None.

(** The number of the three field markers that a line holds. *)
Definition markers_in (line : str) : nat :=
  (if contains identity_marker line then 1 else 0)
  + (if contains align_len_marker line then 1 else 0)
  + (if contains bit_score_marker line then 1 else 0).

(** One field a line, at most. *)
Definition one_field_a_line (xml_result : str) : Prop :=
  Forall (fun line => (markers_in line <= 1)%nat) (splitlines xml_result).

(** A report with three fields on one line. *)
Definition three_fields_on_a_line : str :=
  lit ("<BlastOutput_iterations>" ++ nl
       ++ "<Hsp_bit-score>60000</Hsp_bit-score><Hsp_identity>1</Hsp_identity>"
       ++ "<Hsp_align-len>1</Hsp_align-len>" ++ nl).

(** What the two sets of local variables have in common when both parsers
    have read the same lines, one field a line. *)
Definition same_locals (s : Simple.locals) (d : Detailed.locals) : Prop :=
  Simple.matches s = Detailed.matches d
  /\ Simple.percent_identity s = Detailed.percent_identity d
  /\ Simple.bit_score s = Detailed.bit_score d
  /\ (Detailed.align_len d = Some (Simple.align_len s)
      \/ (Detailed.align_len d = None /\ Simple.align_len s = 0))
  /\ (Simple.identity s = Some (Detailed.identity d)
      \/ (Simple.identity s = None /\ Detailed.identity d = 0)).

(** A report with two records; the second has alignment length 0, so the
    percent identity of the first is carried over to it. *)
Definition carried_over_report : str :=
  lit ("<BlastOutput_iterations>" ++ nl
       ++ "<Hsp_identity>100</Hsp_identity>" ++ nl
       ++ "<Hsp_align-len>100</Hsp_align-len>" ++ nl
       ++ "<Hsp_bit-score>54999</Hsp_bit-score>" ++ nl
       ++ "<Hsp_identity>50</Hsp_identity>" ++ nl
       ++ "<Hsp_align-len>0</Hsp_align-len>" ++ nl
       ++ "<Hsp_bit-score>10</Hsp_bit-score>" ++ nl
       ++ "</BlastOutput_iterations>" ++ nl).

(** ** Notions of the further properties *)

(** A line feed or a carriage return. *)
Definition is_eol (c : ascii) : bool := (code c =? 10) || (code c =? 13).

(** A text without line feed and carriage return. *)
Definition one_line (s : str) : Prop := Forall (fun c => is_eol c = false) s.

(** An event of the polling loop for the job [rid]. *)
Definition poll_event (rid : str) (e : event) : Prop :=
  (exists response, e = status_poll rid response)
  \/ e = Sleep 5 \/ e = Print status_error_msg.

(** The seconds slept in a trace. *)
Fixpoint slept (t : list event) : Z :=
  match t with
  | [] => 0
  | Sleep seconds :: t' => seconds + slept t'
  | _ :: t' => slept t'
  end.

Definition is_status_poll (e : event) : bool :=
  match e with
  | Http (GET _ [_; _; _; _]) _ => true
  | _ => false
  end.

(** The number of status requests made in a trace. *)
Definition polls (t : list event) : nat := length (filter is_status_poll t).

Definition is_ready (text : str) : bool :=
  match status_of text with
  | Some true => true
  | _ => false
  end.

Definition is_waiting (text : str) : bool :=
  match status_of text with
  | Some false => true
  | _ => false
  end.

(** The sequences submitted in a trace, in order. *)
Definition queries (t : list event) : list str :=
  flat_map (fun e => match e with
                     | Http (POST _ [_; _; _; (_, sequence); _]) _ => [sequence]
                     | _ => []
                     end) t.

(** The reports fetched in a trace, in order. *)
Definition reports (t : list event) : list str :=
  flat_map (fun e => match e with
                     | Http (GET _ [_; _; _]) (Some report) => [report]
                     | _ => []
                     end) t.

(** The job identifiers of the status and fetch requests of a trace. *)
Definition rids (t : list event) : list str :=
  flat_map (fun e => match e with
                     | Http (GET _ (_ :: (_, rid) :: _)) _ => [rid]
                     | _ => []
                     end) t.

(** Among [lines], read from the locals [st0], there is a bit-score line at
    which the record qualifies: right after that line, percent identity is
    above 99 and bit score above 54998. *)
Definition qualifies_somewhere (st0 : Detailed.locals) (lines : list str) : Prop :=
  exists pre line post st,
    lines = pre ++ line :: post
    /\ is_bit_score_line line = true
    /\ for_each Detailed.body (pre ++ [line]) st0 = Ok st
    /\ qualifies (Detailed.percent_identity st) (Detailed.bit_score st) = true.

(** The files written in a trace: name and writes. *)
Definition written (t : list event) : list (str * list str) :=
  flat_map (fun e => match e with
                     | WriteFile name writes => [(name, writes)]
                     | _ => []
                     end) t.

(** ** Notions of the statement on the polling loop inside the driver *)

(** What the driver is to do on one answer to a status request: the
    request with its answer, then [sleep(5)] when the answer says Waiting,
    the error print when it says neither Ready nor Waiting, and nothing
    more when it says Ready. *)
Definition answered_poll (rid text : str) : list event :=
  status_poll rid (Some text)
  :: match status_of text with
     | Some true => []
     | Some false => [Sleep 5]
     | None => [Print status_error_msg]
     end.

(** The same for a run of answers, one status request for each. *)
Definition poll_trace (rid : str) (answers : list str) : list event :=
  flat_map (answered_poll rid) answers.

(** What comes in a trace right after a status request for [rid] that was
    answered by [text]: the fetch for [rid] after Ready; [sleep(5)] and the
    next status request for [rid] after Waiting; the error print and, with
    no sleep, the next status request for [rid] after any other answer. *)
Definition next_events (rid text : str) (post : list event) : Prop :=
  exists response post',
    post = match status_of text with
           | Some true => results_fetch rid response :: post'
           | Some false => Sleep 5 :: status_poll rid response :: post'
           | None => Print status_error_msg :: status_poll rid response :: post'
           end.

(** Each answered status request of the trace [t] is followed as
    [next_events] says. *)
Definition polls_are_followed (t : list event) : Prop :=
  forall pre rid text post,
    t = pre ++ status_poll rid (Some text) :: post -> next_events rid text post.

(** The same, event by event from the front. *)
Fixpoint well_polled (t : list event) : Prop :=
  match t with
  | [] => True
  | e :: t' =>
      (forall rid text, e = status_poll rid (Some text) -> next_events rid text t')
      /\ well_polled t'
  end.

(** * Properties *)

Section SliceFacts.
Context {A : Type}.
Implicit Types s : list A.

Lemma py_slice_nonneg s lo hi :
  0 <= lo -> lo <= hi ->
  py_slice s (Some lo) (Some hi)
  = firstn (Z.to_nat (hi - lo)) (skipn (Z.to_nat lo) s).
Proof.
  intros Hlo Hhi. unfold py_slice, clamp_index, len.
  destruct (lo <? 0) eqn:E1; [lia|]. destruct (hi <? 0) eqn:E2; [lia|].
  clear E1 E2.
  destruct (Z_le_gt_dec lo (Z.of_nat (length s))) as [L|L].
  - rewrite (Z.min_l lo) by lia.
    destruct (Z_le_gt_dec hi (Z.of_nat (length s))) as [H|H].
    + rewrite Z.min_l by lia. reflexivity.
    + rewrite Z.min_r by lia.
      rewrite !firstn_all2; try reflexivity; rewrite length_skipn; lia.
  - rewrite !Z.min_r by lia.
    rewrite !skipn_all2 by lia. now rewrite !firstn_nil.
Qed.

Lemma py_slice_prefix s m :
  0 <= m -> py_slice s None (Some m) = firstn (Z.to_nat m) s.
Proof.
  intros Hm. unfold py_slice, clamp_index, len.
  destruct (m <? 0) eqn:E; [lia|]. cbn [Z.to_nat skipn].
  rewrite Z.sub_0_r.
  destruct (Z_le_gt_dec m (Z.of_nat (length s))).
  - now rewrite Z.min_l by lia.
  - rewrite Z.min_r by lia. rewrite Nat2Z.id.
    rewrite !firstn_all2; try reflexivity; lia.
Qed.

(** The first [m] pieces of width [c] make up the first [m * c] elements. *)
Lemma concat_pieces s (c m : nat) :
  concat (map (fun k => firstn c (skipn (k * c) s)) (seq 0 m))
  = firstn (m * c) s.
Proof.
  induction m as [|m IH].
  - reflexivity.
  - rewrite seq_S, map_app, concat_app, IH. cbn [map concat plus].
    rewrite app_nil_r.
    rewrite <- (firstn_skipn (m * c) (firstn (S m * c) s)).
    rewrite firstn_firstn, skipn_firstn_comm.
    replace (Nat.min (m * c) (S m * c)) with (m * c)%nat by lia.
    replace (S m * c - m * c)%nat with c by lia. reflexivity.
Qed.
End SliceFacts.

(** ** The embedding at work on small inputs *)

Example split_field_line :
  split (lit "<Hsp_identity>100</Hsp_identity>") (lit ">")
  = Ok [lit "<Hsp_identity"; lit "100</Hsp_identity"; []]
  /\ field (lit "<Hsp_identity> 100 </Hsp_identity>") = Ok (lit "100")
  /\ field (lit "no field") = Raise IndexError.
Proof. repeat split; vm_compute; reflexivity. Qed.

Example splitlines_terminators :
  splitlines (lit ("a" ++ String (ascii_of_nat 13) nl ++ nl ++ "b" ++ nl))
  = [lit "a"; []; lit "b"]
  /\ splitlines [] = []
  /\ file_lines (lit ("a" ++ String (ascii_of_nat 13) nl ++ "b"))
     = [lit ("a" ++ nl); lit "b"].
Proof. repeat split; vm_compute; reflexivity. Qed.

Example int_literals :
  py_int (lit "-1_000") = Ok (-1000)
  /\ py_int (lit "007") = Ok 7
  /\ py_int [] = Raise ValueError
  /\ py_int (lit "1__0") = Raise ValueError
  /\ py_int (lit "12.5") = Raise ValueError.
Proof. repeat split; vm_compute; reflexivity. Qed.

Example float_literals :
  py_float (lit "54999") = Ok (float_of_Z 54999)
  /\ py_float (lit "5.4999e4") = Ok (float_of_Z 54999)
  /\ py_float (lit "-Infinity") = Ok (S754_infinity true)
  /\ py_float (lit "1e400") = Ok (S754_infinity false)
  /\ py_float (lit "NaN") = Ok S754_nan
  /\ py_float (lit "1e") = Raise ValueError.
Proof. repeat split; vm_compute; reflexivity. Qed.

(** [99 / 100 * 100] is 99.0, while [29 / 100 * 100] is just under 29.0. *)
Example rounded_percentages :
  (q <- int_true_divide 99 100 ;; Ok (float_mul q (float_of_Z 100)))
  = Ok (float_of_Z 99)
  /\ (q <- int_true_divide 29 100 ;; Ok (float_mul q (float_of_Z 100)))
     = Ok (S754_finite false 8162774324609023 (-48))
  /\ float_of_Z 29 = S754_finite false 8162774324609024 (-48)
  /\ int_true_divide (10 ^ 400) 1 = Raise OverflowError.
Proof. repeat split; vm_compute; reflexivity. Qed.

(** A bit-score line before any identity line, with a positive alignment
    length: [parse_blast_result] reads the unset [identity] and raises,
    [parse_blast_result_detailed] starts from [identity = 0]. *)
Example unset_identity :
  let report := lit ("<BlastOutput_iterations>" ++ nl
                     ++ "<Hsp_align-len>100</Hsp_align-len>" ++ nl
                     ++ "<Hsp_bit-score>60000</Hsp_bit-score>" ++ nl) in
  parse_blast_result report = Raise UnboundLocalError
  /\ parse_blast_result_detailed report = Ok (-1, zero, float_of_Z 60000).
Proof. split; vm_compute; reflexivity. Qed.

(** A whole run: one chunk, submitted, polled three times, fetched, written. *)
Example one_chunk_run :
  main [lit "blast_process.py"; lit "input.txt"] (fun _ => Some thirty)
       (lit "20240101_120000")
       [lit ("    RID = R1" ++ nl ++ "    RTOE = 30"); lit "Status=WAITING";
        lit "try again"; lit "Status=READY";
        one_record_report "100" "100" "54999"]
  = ([submission thirty (Some (lit ("    RID = R1" ++ nl ++ "    RTOE = 30")));
      status_poll (lit "R1") (Some (lit "Status=WAITING")); Sleep 5;
      status_poll (lit "R1") (Some (lit "try again")); Print status_error_msg;
      status_poll (lit "R1") (Some (lit "Status=READY"));
      results_fetch (lit "R1") (Some (one_record_report "100" "100" "54999"));
      WriteFile (output_file_name (lit "20240101_120000"))
                [lit ("1,ACGTACGTACGTACGTACGT,1" ++ nl); lit ("2,ACGTACGTAC,1" ++ nl)];
      Print (output_file_name (lit "20240101_120000"))],
     Done tt []).
Proof. vm_compute; reflexivity. Qed.

(** ** split_sequence *)

Lemma range_len_chunks (n C : Z) :
  0 < C -> 0 < n ->
  range_len 0 n C = (n - 1) / C + 1
  /\ (n - 1) / C * C < n <= ((n - 1) / C + 1) * C
  /\ n - (n - 1) / C * C = (if n mod C =? 0 then C else n mod C).
Proof.
  intros HC Hn. unfold range_len.
  destruct (0 <? C) eqn:E1; [|lia]. destruct (0 <? n) eqn:E2; [|lia].
  rewrite Z.sub_0_r.
  pose proof (Z.div_mod (n - 1) C ltac:(lia)) as D1.
  pose proof (Z.mod_pos_bound (n - 1) C HC) as B1.
  pose proof (Z.div_mod n C ltac:(lia)) as D2.
  pose proof (Z.mod_pos_bound n C HC) as B2.
  repeat split; try nia.
  destruct (n mod C =? 0) eqn:E3.
  - apply Z.eqb_eq in E3.
    assert ((n - 1) / C = n / C - 1) by nia. nia.
  - apply Z.eqb_neq in E3.
    assert ((n - 1) / C = n / C) by nia. nia.
Qed.

Section Chunking.
Context {A : Type}.
Implicit Types s : list A.

Lemma split_sequence_pieces s C :
  0 < C ->
  split_sequence s C
  = Ok (pieces s (Z.to_nat C) (Z.to_nat (range_len 0 (len s) C))).
Proof.
  intros HC. unfold split_sequence, py_range, pieces.
  destruct (C =? 0) eqn:E; [lia|]. cbn [rbind]. f_equal.
  rewrite map_map. apply map_ext. intros k.
  rewrite py_slice_nonneg by lia. f_equal; [f_equal; lia|].
  f_equal. rewrite Z.add_0_l, Z2Nat.inj_mul, Nat2Z.id by lia. reflexivity.
Qed.

Lemma pieces_length s c m : length (pieces s c m) = m.
Proof. unfold pieces. now rewrite length_map, length_seq. Qed.

Lemma pieces_nth s c m k :
  (k < m)%nat -> nth k (pieces s c m) [] = firstn c (skipn (k * c) s).
Proof.
  intros Hk. unfold pieces. apply nth_error_nth.
  rewrite nth_error_map, nth_error_seq.
  apply Nat.ltb_lt in Hk. now rewrite Hk.
Qed.

Lemma pieces_nth_length s c m k :
  (k < m)%nat ->
  length (nth k (pieces s c m) []) = Nat.min c (length s - k * c).
Proof.
  intros Hk. rewrite pieces_nth by exact Hk.
  now rewrite length_firstn, length_skipn.
Qed.

Lemma pieces_concat s c m :
  (length s <= m * c)%nat -> concat (pieces s c m) = s.
Proof.
  intros H. unfold pieces. rewrite concat_pieces. now apply firstn_all2.
Qed.
End Chunking.

(** The chunks of a positive width cover the sequence. *)
Lemma split_sequence_concat {A : Type} (s : list A) (C : Z) :
  0 < C -> exists chunks, split_sequence s C = Ok chunks /\ concat chunks = s.
Proof.
  intros HC. rewrite split_sequence_pieces by exact HC.
  eexists. split; [reflexivity|]. apply pieces_concat.
  destruct (Z_le_gt_dec (len s) 0) as [Hn|Hn]; unfold len in *; [lia|].
  destruct (range_len_chunks (Z.of_nat (length s)) C HC ltac:(lia)) as (Hr & Hb & _).
  rewrite Hr.
  assert (0 <= (Z.of_nat (length s) - 1) / C) by (apply Z.div_pos; lia).
  nia.
Qed.

(** C1. For a positive chunk size [C], [split_sequence s C] returns chunks
    whose concatenation is [s]; every chunk but the last has length [C];
    the last has length [len s mod C], or [C] when [C] divides [len s];
    and chunk [k] is the stretch of [s] that starts at offset [k * C], so
    each chunk begins where the one before it ends. *)
Theorem split_sequence_coverage {A : Type} (s : list A) (C : Z) :
  0 < C ->
  exists chunks,
    split_sequence s C = Ok chunks
    /\ concat chunks = s
    /\ (forall k, (k + 1 < length chunks)%nat -> len (nth k chunks []) = C)
    /\ (chunks <> [] ->
        len (last chunks []) = (if len s mod C =? 0 then C else len s mod C))
    /\ (forall k, (k < length chunks)%nat ->
        nth k chunks [] = firstn (Z.to_nat C) (skipn (k * Z.to_nat C) s)).
Proof.
  intros HC. rewrite split_sequence_pieces by exact HC.
  set (c := Z.to_nat C). set (m := Z.to_nat (range_len 0 (len s) C)).
  exists (pieces s c m). split; [reflexivity|].
  destruct (Z_le_gt_dec (len s) 0) as [Hn|Hn].
  - (* the empty sequence: no chunk at all *)
    assert (Hm : m = O).
    { unfold m, range_len. destruct (0 <? C) eqn:E0; [|lia].
      destruct (0 <? len s) eqn:E; [lia|reflexivity]. }
    assert (HS : s = []).
    { destruct s; [reflexivity|]. unfold len in Hn. cbn in Hn. lia. }
    rewrite Hm, HS. cbn. repeat split; try reflexivity; try (intros; lia).
    congruence.
  - destruct (range_len_chunks (len s) C HC ltac:(lia)) as (Hr & Hb & Hl).
    unfold len in Hr, Hb, Hl, Hn.
    set (q := (Z.of_nat (length s) - 1) / C) in *.
    assert (Hq : 0 <= q) by (apply Z.div_pos; lia).
    assert (Hm : m = S (Z.to_nat q)).
    { unfold m, len. rewrite Hr. rewrite Z2Nat.inj_add by lia. cbn. lia. }
    assert (Hc : Z.of_nat c = C) by (unfold c; lia).
    assert (Hqc : Z.of_nat (Z.to_nat q * c) = q * C) by nia.
    repeat split.
    + apply pieces_concat. rewrite Hm. nia.
    + intros k Hk. rewrite pieces_length in Hk. unfold len.
      rewrite pieces_nth_length by lia. nia.
    + intros _. rewrite <- (rev_involutive (pieces s c m)) at 1.
      unfold len.
      replace (last (rev (rev (pieces s c m))) [])
        with (nth (Z.to_nat q) (pieces s c m) []).
      * rewrite pieces_nth_length by lia. rewrite <- Hl. nia.
      * rewrite rev_involutive.
        rewrite <- (pieces_length s c m) in Hm.
        destruct (pieces s c m) as [|x l] eqn:E using rev_ind;
          [cbn in Hm; lia|].
        rewrite last_last. rewrite length_app in Hm. cbn in Hm.
        rewrite app_nth2 by lia.
        replace (Z.to_nat q - length l)%nat with O by lia. reflexivity.
    + intros k Hk. rewrite pieces_length in Hk. now apply pieces_nth.
Qed.

Lemma split_sequence_coverage_witness :
  0 < 3 /\
  exists chunks,
    split_sequence (lit "ACGTACG") 3 = Ok chunks
    /\ concat chunks = lit "ACGTACG"
    /\ (forall k, (k + 1 < length chunks)%nat -> len (nth k chunks []) = 3)
    /\ (chunks <> [] ->
        len (last chunks [])
        = (if len (lit "ACGTACG") mod 3 =? 0 then 3 else len (lit "ACGTACG") mod 3))
    /\ (forall k, (k < length chunks)%nat ->
        nth k chunks [] = firstn (Z.to_nat 3) (skipn (k * Z.to_nat 3) (lit "ACGTACG"))).
Proof.
  split; [lia | apply (split_sequence_coverage (lit "ACGTACG") 3); lia].
Defined.

(** ** The parsers: marker and thresholds *)

(** C5. A report that does not contain the iterations marker makes
    [parse_blast_result] return -1 and [parse_blast_result_detailed]
    return (-1, 0.0, 0.0), whatever else the report holds. *)
Theorem no_iterations_short_circuit (xml_result : str) :
  contains iterations_marker xml_result = false ->
  parse_blast_result xml_result = Ok (-1)
  /\ parse_blast_result_detailed xml_result = Ok (-1, zero, zero).
Proof.
  intros H. unfold parse_blast_result, parse_blast_result_detailed.
  rewrite H. split; reflexivity.
Qed.

Lemma no_iterations_short_circuit_witness :
  contains iterations_marker record_without_marker = false
  /\ parse_blast_result record_without_marker = Ok (-1)
  /\ parse_blast_result_detailed record_without_marker = Ok (-1, zero, zero).
Proof.
  split; [vm_compute; reflexivity|].
  apply (no_iterations_short_circuit record_without_marker).
  vm_compute; reflexivity.
Defined.

(** C3. The test [percent_identity > 99 and bit_score > 54998] is strict on
    both sides.  One record with identity 100, alignment length 100 and bit
    score 54999 gives match id 1 (percent identity 100.0); with bit score
    54998 it gives -1; a record whose percent identity comes out as exactly
    99.0 (99 of 100, or 198 of 200) gives -1 whatever its bit score; in
    both parsers. *)
Theorem threshold_boundary :
  (parse_blast_result (one_record_report "100" "100" "54999") = Ok 1
   /\ parse_blast_result_detailed (one_record_report "100" "100" "54999")
      = Ok (1, float_of_Z 100, float_of_Z 54999))
  /\ (parse_blast_result (one_record_report "100" "100" "54998") = Ok (-1)
      /\ parse_blast_result_detailed (one_record_report "100" "100" "54998")
         = Ok (-1, float_of_Z 100, float_of_Z 54998))
  /\ (parse_blast_result (one_record_report "99" "100" "60000") = Ok (-1)
      /\ parse_blast_result_detailed (one_record_report "99" "100" "60000")
         = Ok (-1, float_of_Z 99, float_of_Z 60000)
      /\ parse_blast_result (one_record_report "198" "200" "54999") = Ok (-1)
      /\ parse_blast_result_detailed (one_record_report "198" "200" "54999")
         = Ok (-1, float_of_Z 99, float_of_Z 54999))
  /\ (forall bit_score, qualifies (float_of_Z 99) bit_score = false)
  /\ (forall percent_identity, qualifies percent_identity (float_of_Z 54998) = false)
  /\ qualifies (float_of_Z 100) (float_of_Z 54999) = true.
Proof.
  repeat split; try (vm_compute; reflexivity).
  intros p. unfold qualifies.
  replace (float_gt (float_of_Z 54998) (float_of_Z 54998)) with false
    by (vm_compute; reflexivity).
  apply andb_false_r.
Qed.

(** ** process_sequence *)

Lemma lstrip_spec (s : str) :
  exists a, s = a ++ lstrip s
            /\ forallb py_isspace a = true
            /\ starts_tight (lstrip s).
Proof.
  induction s as [|c s (a & E & Ha & Ht)].
  - exists []. cbn. auto.
  - cbn [lstrip]. destruct (py_isspace c) eqn:Hc.
    + exists (c :: a). cbn [app forallb]. rewrite Hc, Ha.
      repeat split; [now f_equal | exact Ht].
    + exists []. cbn. auto.
Qed.

Lemma forallb_rev {A : Type} (f : A -> bool) (l : list A) :
  forallb f (rev l) = forallb f l.
Proof.
  induction l as [|x l IH]; [reflexivity|].
  cbn. rewrite forallb_app, IH. cbn. rewrite andb_true_r. apply andb_comm.
Qed.

(** [strip] takes whitespace, and nothing else, off both ends. *)
Lemma strip_spec (s : str) :
  exists a b, s = a ++ strip s ++ b
              /\ forallb py_isspace a = true
              /\ forallb py_isspace b = true
              /\ starts_tight (strip s)
              /\ starts_tight (rev (strip s)).
Proof.
  destruct (lstrip_spec s) as (a & Ea & Ha & Ta).
  destruct (lstrip_spec (rev (lstrip s))) as (b & Eb & Hb & Tb).
  exists a, (rev b). unfold strip, rstrip.
  assert (E : lstrip s = rev (lstrip (rev (lstrip s))) ++ rev b).
  { rewrite <- rev_app_distr, <- Eb. now rewrite rev_involutive. }
  repeat split.
  - now rewrite <- E.
  - exact Ha.
  - now rewrite forallb_rev.
  - destruct (rev (lstrip (rev (lstrip s)))) as [|c r] eqn:Er; [exact I|].
    rewrite E in Ta. exact Ta.
  - now rewrite rev_involutive.
Qed.

Lemma py_slice_tail {A : Type} (s : list A) : py_slice s (Some 1) None = tl s.
Proof.
  unfold py_slice, clamp_index, len. cbn [Z.ltb Z.compare].
  destruct s as [|x s]; [reflexivity|].
  rewrite Z.min_l by (cbn [length]; lia). cbn [Z.to_nat Pos.to_nat Pos.iter_op skipn tl].
  apply firstn_all2. cbn [length]. lia.
Qed.

Lemma last_cons {A : Type} (x d : A) (l : list A) : last (x :: l) d = last l x.
Proof.
  revert x d. induction l as [|y l IH]; intros x d; [reflexivity|].
  change (last (x :: y :: l) d) with (last (y :: l) d). now rewrite !IH.
Qed.

Lemma read_loop (lines : list str) (sequence_id sequence : str) :
  fold_left read_line lines (sequence_id, sequence)
  = (last (map (fun l => tl (strip l)) (filter is_header lines)) sequence_id,
     sequence ++ concat (map strip (filter (fun l => negb (is_header l)) lines))).
Proof.
  revert sequence_id sequence.
  induction lines as [|l lines IH]; intros sequence_id sequence.
  - cbn. now rewrite app_nil_r.
  - cbn [fold_left read_line filter]. fold (is_header l).
    destruct (is_header l) eqn:H; cbn [negb map concat].
    + rewrite IH, py_slice_tail, last_cons. reflexivity.
    + rewrite IH, app_assoc. reflexivity.
Qed.

(** C6. For a non-negative [max_sequence_length], [process_sequence] chunks
    the raw sequence itself when its length is at most
    [max_sequence_length], and its first [max_sequence_length] characters,
    no more and no fewer, when it is longer; it raises nothing, and the
    chunks it returns make up that sequence. *)
Theorem truncation (content : str) (max_sequence_length : Z) :
  0 <= max_sequence_length ->
  let raw := snd (read_sequence content) in
  let kept := if len raw <=? max_sequence_length then raw
              else firstn (Z.to_nat max_sequence_length) raw in
  process_sequence (Some content) max_sequence_length
  = split_sequence kept default_chunk_size
  /\ (max_sequence_length < len raw -> len kept = max_sequence_length)
  /\ exists chunks,
       process_sequence (Some content) max_sequence_length = Ok chunks
       /\ concat chunks = kept.
Proof.
  intros Hmax raw kept. unfold process_sequence. fold raw.
  rewrite py_slice_prefix by exact Hmax.
  assert (E : firstn (Z.to_nat max_sequence_length) raw = kept).
  { unfold kept, len. destruct (Z.leb_spec (Z.of_nat (length raw)) max_sequence_length);
      [apply firstn_all2; lia | reflexivity]. }
  rewrite E. split; [reflexivity|]. split.
  - intros H. unfold kept, len in *.
    destruct (Z.leb_spec (Z.of_nat (length raw)) max_sequence_length); [lia|].
    rewrite length_firstn. lia.
  - apply split_sequence_concat. reflexivity.
Qed.

Lemma truncation_witness :
  0 <= default_max_sequence_length
  /\ exists chunks,
       process_sequence (Some (lit "ACGT")) default_max_sequence_length = Ok chunks
       /\ concat chunks = lit "ACGT".
Proof.
  split; [discriminate|].
  exact (proj2 (proj2 (truncation (lit "ACGT") default_max_sequence_length
                         ltac:(discriminate)))).
Defined.

(** The reading of C9 as it is worded fails: a non-header line that starts
    with blanks loses them. *)
Lemma leading_whitespace_is_stripped :
  snd (read_sequence (lit "  AC")) = lit "AC"
  /\ kept_leading_whitespace (lit "  AC") = lit "  AC"
  /\ snd (read_sequence (lit "  AC")) <> kept_leading_whitespace (lit "  AC").
Proof.
  repeat split; try (vm_compute; reflexivity).
  vm_compute. discriminate.
Qed.

(** C9, amended. [process_sequence] keeps, of the lines that start with
    ">", only the identifier [line.strip()[1:]] of the last one, and joins
    all other lines in file order, each stripped of whitespace at both of
    its ends; [strip] removes whitespace only, so the characters between
    the first and the last non-blank one are kept as they are. *)
Theorem read_sequence_strips_both_ends (content : str) :
  read_sequence content
  = (last (map (fun l => tl (strip l)) (filter is_header (file_lines content))) [],
     concat (map strip (filter (fun l => negb (is_header l)) (file_lines content))))
  /\ (forall max_sequence_length,
        process_sequence (Some content) max_sequence_length
        = split_sequence
            (py_slice
               (concat (map strip
                  (filter (fun l => negb (is_header l)) (file_lines content))))
               None (Some max_sequence_length))
            default_chunk_size)
  /\ (forall line : str,
        exists a b, line = a ++ strip line ++ b
                    /\ forallb py_isspace a = true
                    /\ forallb py_isspace b = true
                    /\ starts_tight (strip line)
                    /\ starts_tight (rev (strip line))).
Proof.
  assert (E : read_sequence content
    = (last (map (fun l => tl (strip l)) (filter is_header (file_lines content))) [],
       concat (map strip (filter (fun l => negb (is_header l)) (file_lines content))))).
  { unfold read_sequence. now rewrite read_loop. }
  split; [exact E|]. split.
  - intros m. unfold process_sequence. now rewrite E.
  - apply strip_spec.
Qed.

(** ** The polling loop *)

Lemma poll_step (fuel : nat) (rid text : str) (script : list str) :
  poll (S fuel) rid (text :: script)
  = match status_of text with
    | Some true => ([status_poll rid (Some text)], Done tt script)
    | Some false =>
        followed_by [status_poll rid (Some text); Sleep 5] (poll fuel rid script)
    | None =>
        followed_by [status_poll rid (Some text); Print status_error_msg]
                    (poll fuel rid script)
    end.
Proof.
  cbn [poll]. unfold bind, check_blast_status, bind, http, ret, emit, followed_by.
  destruct (status_of text) as [[|]|]; try reflexivity;
    destruct (poll fuel rid script) as [t [a rest|e|]]; reflexivity.
Qed.

Lemma poll_starved (fuel : nat) (rid : str) :
  poll (S fuel) rid [] = ([status_poll rid None], Pending).
Proof. reflexivity. Qed.

(** More fuel than the script has responses is never used up. *)
Lemma poll_fuel (rid : str) (script : list str) :
  forall f1 f2, (length script < f1)%nat -> (length script < f2)%nat ->
  poll f1 rid script = poll f2 rid script.
Proof.
  induction script as [|text script IH]; intros f1 f2 H1 H2;
    (destruct f1 as [|f1]; [cbn in H1; lia|]);
    (destruct f2 as [|f2]; [cbn in H2; lia|]).
  - now rewrite !poll_starved.
  - cbn [length] in H1, H2. rewrite !poll_step.
    rewrite (IH f1 f2) by lia. reflexivity.
Qed.

Lemma poll_until_ready_nil (rid : str) :
  poll_until_ready rid [] = ([status_poll rid None], Pending).
Proof. reflexivity. Qed.

Lemma poll_until_ready_cons (rid text : str) (script : list str) :
  poll_until_ready rid (text :: script)
  = match status_of text with
    | Some true => ([status_poll rid (Some text)], Done tt script)
    | Some false =>
        followed_by [status_poll rid (Some text); Sleep 5]
                    (poll_until_ready rid script)
    | None =>
        followed_by [status_poll rid (Some text); Print status_error_msg]
                    (poll_until_ready rid script)
    end.
Proof.
  unfold poll_until_ready. cbn [length]. now rewrite poll_step.
Qed.

(** The bound of [poll_until_ready] is never met: any larger bound gives
    the same run. *)
Lemma poll_until_ready_unbounded (rid : str) (script : list str) (fuel : nat) :
  (length script < fuel)%nat -> poll fuel rid script = poll_until_ready rid script.
Proof. intros H. apply poll_fuel; [exact H | lia]. Qed.

Lemma not_a_fetch_submission chunk response : not_a_fetch (submission chunk response).
Proof. intros rid r. unfold submission, results_fetch. discriminate. Qed.

Lemma not_a_fetch_status_poll rid0 response : not_a_fetch (status_poll rid0 response).
Proof. intros rid r. unfold status_poll, results_fetch. discriminate. Qed.

Lemma not_a_fetch_Sleep n : not_a_fetch (Sleep n).
Proof. intros rid r. discriminate. Qed.

Lemma not_a_fetch_Print msg : not_a_fetch (Print msg).
Proof. intros rid r. discriminate. Qed.

Create HintDb fetch.
#[local] Hint Resolve not_a_fetch_submission not_a_fetch_status_poll
  not_a_fetch_Sleep not_a_fetch_Print : fetch.

(** What a run of the polling loop looks like: it makes no fetch; it ends
    right after a poll answered Ready, or waits for the answer to a poll. *)
Lemma poll_until_ready_shape (rid : str) (script : list str) :
  Forall not_a_fetch (fst (poll_until_ready rid script))
  /\ match snd (poll_until_ready rid script) with
     | Done _ rest =>
         exists t text,
           fst (poll_until_ready rid script) = t ++ [status_poll rid (Some text)]
           /\ status_of text = Some true
     | Pending =>
         exists t, fst (poll_until_ready rid script) = t ++ [status_poll rid None]
     | Failed _ => False
     end.
Proof.
  induction script as [|text script [IHf IHo]].
  - rewrite poll_until_ready_nil. cbn. split; [auto with fetch|].
    now exists [].
  - rewrite poll_until_ready_cons.
    destruct (status_of text) as [[|]|] eqn:Hs.
    + cbn. split; [auto with fetch|]. exists [], text. auto.
    + unfold followed_by. cbn [fst snd]. split.
      * apply Forall_app. split; [auto with fetch | exact IHf].
      * destruct (snd (poll_until_ready rid script)) as [a rest|e|].
        -- destruct IHo as (t & tx & E & H). rewrite E.
           exists ([status_poll rid (Some text); Sleep 5] ++ t), tx.
           now rewrite <- app_assoc.
        -- exact IHo.
        -- destruct IHo as (t & E). rewrite E.
           exists ([status_poll rid (Some text); Sleep 5] ++ t).
           now rewrite <- app_assoc.
    + unfold followed_by. cbn [fst snd]. split.
      * apply Forall_app. split; [auto with fetch | exact IHf].
      * destruct (snd (poll_until_ready rid script)) as [a rest|e|].
        -- destruct IHo as (t & tx & E & H). rewrite E.
           exists ([status_poll rid (Some text); Print status_error_msg] ++ t), tx.
           now rewrite <- app_assoc.
        -- exact IHo.
        -- destruct IHo as (t & E). rewrite E.
           exists ([status_poll rid (Some text); Print status_error_msg] ++ t).
           now rewrite <- app_assoc.
Qed.

(** ** submit_blast_query and the body of the loop over the chunks *)

Lemma split_go_nonempty (sep s : str) (skip : nat) (acc : str) :
  split_go sep s skip acc <> [].
Proof.
  revert skip acc. induction s as [|c s IH]; intros skip acc; cbn [split_go].
  - discriminate.
  - destruct skip; [|apply IH].
    destruct (startswith (c :: s) sep); [discriminate | apply IH].
Qed.

Lemma split_go_contains (sep s acc : str) :
  sep <> [] -> contains sep s = true ->
  exists a b rest, split_go sep s O acc = a :: b :: rest.
Proof.
  intros Hsep. revert acc. induction s as [|c s IH]; intros acc H.
  - destruct sep; [congruence | cbn in H; discriminate H].
  - cbn [contains] in H. cbn [split_go].
    destruct (startswith (c :: s) sep) eqn:E.
    + destruct (split_go sep s (pred (length sep)) []) as [|b rest] eqn:G.
      * now apply split_go_nonempty in G.
      * now exists (rev acc), b, rest.
    + cbn [orb] in H. now apply IH.
Qed.

Lemma submit_blast_query_run (chunk text : str) (script : list str) :
  submit_blast_query chunk (lit "nt") (lit "blastn") (text :: script)
  = ([submission chunk (Some text)],
     Done (if contains (lit "RID = ") text then Some (rid_of text) else None) script).
Proof.
  unfold submit_blast_query, bind, http. fold (submission chunk (Some text)).
  destruct (contains (lit "RID = ") text) eqn:H; [|reflexivity].
  unfold lift, ret, split, rid_of.
  destruct (split_go_contains (lit "RID = ") text [] ltac:(discriminate) H)
    as (a & b & rest & E).
  cbn [lit list_ascii_of_string] in E |- *. rewrite E.
  cbn [rbind item nth_error nth].
  destruct (split_go [newline] b O []) as [|d ds] eqn:G;
    [now apply split_go_nonempty in G|].
  reflexivity.
Qed.

Lemma submit_blast_query_starved (chunk : str) :
  submit_blast_query chunk (lit "nt") (lit "blastn") []
  = ([submission chunk None], Pending).
Proof. reflexivity. Qed.

(** The body of the loop over the chunks, case by case. *)
Lemma process_chunk_run (chunk text : str) (results script : list str) :
  process_chunk chunk results (text :: script)
  = if contains (lit "RID = ") text && negb (falsy (Some (rid_of text))) then
      match poll_until_ready (rid_of text) script with
      | (t, Done _ []) =>
          (submission chunk (Some text) :: t ++ [results_fetch (rid_of text) None],
           Pending)
      | (t, Done _ (report :: rest)) =>
          (submission chunk (Some text) :: t
             ++ [results_fetch (rid_of text) (Some report)],
           Done (results ++ [report]) rest)
      | (t, Failed e) => (submission chunk (Some text) :: t, Failed e)
      | (t, Pending) => (submission chunk (Some text) :: t, Pending)
      end
    else
      ([submission chunk (Some text); Print submit_error_msg], Done results script).
Proof.
  unfold process_chunk, bind at 1. rewrite submit_blast_query_run.
  destruct (contains (lit "RID = ") text); [|reflexivity].
  cbn [andb]. destruct (falsy (Some (rid_of text))) eqn:F; [reflexivity|].
  cbn [negb]. unfold bind.
  destruct (poll_until_ready (rid_of text) script) as [t [a rest|e|]];
    try reflexivity.
  unfold fetch_blast_results, http, ret. fold (results_fetch (rid_of text)).
  destruct rest as [|report rest]; cbn; now rewrite ?app_nil_r.
Qed.

(** ** Each fetch follows a Ready poll *)

Lemma no_fetch_follows_ready (t : list event) :
  Forall not_a_fetch t -> fetch_follows_ready t.
Proof.
  intros H pre rid response post E. subst t.
  apply Forall_app in H. destruct H as [_ H]. inversion H as [|x l Hx Hl]; subst.
  now contradiction (Hx rid response).
Qed.

Lemma last_fetch_unique (l1 pre post : list event) (e0 : event) rid response :
  Forall not_a_fetch l1 ->
  l1 ++ [e0] = pre ++ results_fetch rid response :: post ->
  pre = l1 /\ e0 = results_fetch rid response.
Proof.
  intros H. revert pre. induction H as [|x l1 Hx Hl IH]; intros pre E.
  - destruct pre as [|y pre]; cbn in E.
    + injection E as E1 E2. auto.
    + injection E as E1 E2. destruct pre; discriminate E2.
  - destruct pre as [|y pre]; cbn in E.
    + injection E as E1 E2. now contradiction (Hx rid response).
    + injection E as E1 E2. destruct (IH pre E2) as [-> ->]. subst y. auto.
Qed.

Lemma fetch_follows_ready_app (t1 t2 : list event) :
  fetch_follows_ready t1 -> fetch_follows_ready t2 -> starts_clean t2 ->
  fetch_follows_ready (t1 ++ t2).
Proof.
  intros H1 H2 Hc pre rid response post E.
  apply app_eq_app in E. destruct E as (l & [[E1 E2] | [E1 E2]]).
  - (* the fetch lies in [t2] *)
    destruct l as [|e l].
    + rewrite app_nil_r in E1. subst t1. cbn in E2. subst t2.
      destruct (H2 [] rid response post eq_refl) as (pre' & text & E & _).
      destruct pre'; discriminate E.
    + cbn in E2. injection E2 as E2 E3. subst e.
      destruct (H1 pre rid response l E1) as (pre' & text & E & Hs). eauto.
  - (* the fetch lies in [t1] *)
    destruct l as [|e l].
    + rewrite app_nil_r in E1. subst pre. cbn in E2. subst t2.
      now contradiction (Hc rid response).
    + subst pre. destruct (H2 (e :: l) rid response post E2) as (pre' & text & E & Hs).
      exists (t1 ++ pre'), text. rewrite E, app_assoc. auto.
Qed.

Lemma process_chunk_starved (chunk : str) (results : list str) :
  process_chunk chunk results [] = ([submission chunk None], Pending).
Proof. reflexivity. Qed.

Lemma process_chunk_trace (chunk : str) (results script : list str) :
  fetch_follows_ready (fst (process_chunk chunk results script))
  /\ exists response t,
       fst (process_chunk chunk results script) = submission chunk response :: t.
Proof.
  destruct script as [|text script].
  - rewrite process_chunk_starved. cbn [fst]. split; [|eauto].
    apply no_fetch_follows_ready. auto with fetch.
  - rewrite process_chunk_run.
    destruct (contains (lit "RID = ") text && negb (falsy (Some (rid_of text)))).
    + destruct (poll_until_ready_shape (rid_of text) script) as [Hf Ho].
      destruct (poll_until_ready (rid_of text) script) as [t [a rest|e|]];
        cbn [fst snd] in *.
      * destruct Ho as (t' & tx & E & Hs).
        assert (G : forall response,
                  fetch_follows_ready
                    (submission chunk (Some text) :: t
                       ++ [results_fetch (rid_of text) response])).
        { intros response pre rid r post Eq.
          change (submission chunk (Some text) :: t ++ [results_fetch (rid_of text) response])
            with ((submission chunk (Some text) :: t) ++ [results_fetch (rid_of text) response])
            in Eq.
          apply last_fetch_unique in Eq; [|auto with fetch].
          destruct Eq as [-> Eq]. injection Eq as Eq _. subst rid.
          exists (submission chunk (Some text) :: t'), tx. rewrite E. auto. }
        destruct rest; cbn [fst]; split; eauto.
      * destruct Ho.
      * cbn [fst]. split; [|eauto]. apply no_fetch_follows_ready. auto with fetch.
    + cbn [fst]. split; [|eauto]. apply no_fetch_follows_ready. auto with fetch.
Qed.

Lemma for_chunks_cons (chunk : str) (rest results script : list str) :
  for_chunks (chunk :: rest) results script
  = match process_chunk chunk results script with
    | (t, Done results' script') =>
        (t ++ fst (for_chunks rest results' script'),
         snd (for_chunks rest results' script'))
    | (t, Failed e) => (t, Failed e)
    | (t, Pending) => (t, Pending)
    end.
Proof.
  cbn [for_chunks]. unfold bind.
  destruct (process_chunk chunk results script) as [t [r s|e|]]; try reflexivity.
  now destruct (for_chunks rest r s).
Qed.

Lemma for_chunks_trace (chunks results script : list str) :
  fetch_follows_ready (fst (for_chunks chunks results script))
  /\ starts_clean (fst (for_chunks chunks results script)).
Proof.
  revert results script. induction chunks as [|chunk rest IH]; intros results script.
  - cbn. split; [|exact I]. apply no_fetch_follows_ready. constructor.
  - rewrite for_chunks_cons.
    destruct (process_chunk_trace chunk results script) as (Hf & response & t' & Et).
    destruct (process_chunk chunk results script) as [t [r s|e|]]; cbn [fst] in *.
    + destruct (IH r s) as [IH1 IH2]. split.
      * now apply fetch_follows_ready_app.
      * rewrite Et. cbn. auto with fetch.
    + split; [exact Hf|]. rewrite Et. cbn. auto with fetch.
    + split; [exact Hf|]. rewrite Et. cbn. auto with fetch.
Qed.

Lemma poll_until_ready_unknowns (rid text : str) (n : nat) :
  status_of text = None ->
  poll_until_ready rid (repeat text n)
  = (unknown_polls rid text n ++ [status_poll rid None], Pending).
Proof.
  intros H. induction n as [|n IH].
  - reflexivity.
  - cbn [repeat unknown_polls]. rewrite poll_until_ready_cons, H, IH. reflexivity.
Qed.

(** *** The polling loop as the driver runs it *)

Lemma poll_until_ready_to_ready (rid : str) (before : list str) (ready : str)
      (rest : list str) :
  forallb (fun text => negb (is_ready text)) before = true ->
  is_ready ready = true ->
  poll_until_ready rid (before ++ ready :: rest)
  = (poll_trace rid (before ++ [ready]), Done tt rest).
Proof.
  intros Hb Hr. induction before as [|text before IH].
  - cbn [app]. rewrite poll_until_ready_cons. unfold poll_trace, answered_poll.
    cbn [flat_map]. unfold is_ready in Hr.
    destruct (status_of ready) as [[|]|]; try discriminate Hr. reflexivity.
  - cbn [forallb] in Hb. apply andb_true_iff in Hb. destruct Hb as [Ht Hb].
    cbn [app]. rewrite poll_until_ready_cons, (IH Hb).
    unfold poll_trace, answered_poll. cbn [flat_map]. unfold is_ready in Ht.
    destruct (status_of text) as [[|]|]; try discriminate Ht; reflexivity.
Qed.

Lemma poll_until_ready_no_ready (rid : str) (answers : list str) :
  forallb (fun text => negb (is_ready text)) answers = true ->
  poll_until_ready rid answers
  = (poll_trace rid answers ++ [status_poll rid None], Pending).
Proof.
  intros Hb. induction answers as [|text answers IH]; [reflexivity|].
  cbn [forallb] in Hb. apply andb_true_iff in Hb. destruct Hb as [Ht Hb].
  rewrite poll_until_ready_cons, (IH Hb).
  unfold poll_trace, answered_poll. cbn [flat_map]. unfold is_ready in Ht.
  destruct (status_of text) as [[|]|]; try discriminate Ht; reflexivity.
Qed.

(** A script has a first answer that says Ready, or none. *)
Lemma first_ready (script : list str) :
  forallb (fun text => negb (is_ready text)) script = true
  \/ exists before ready rest,
       script = before ++ ready :: rest
       /\ forallb (fun text => negb (is_ready text)) before = true
       /\ is_ready ready = true.
Proof.
  induction script as [|text script IH]; [now left|].
  destruct (is_ready text) eqn:E.
  - right. exists [], text, script. auto.
  - destruct IH as [IH | (before & ready & rest & -> & Hb & Hr)].
    + left. cbn [forallb]. now rewrite E, IH.
    + right. exists (text :: before), ready, rest. cbn [forallb app].
      now rewrite E, Hb.
Qed.

Lemma status_poll_inj (rid rid' : str) (text text' : str) :
  status_poll rid (Some text) = status_poll rid' (Some text') ->
  rid = rid' /\ text = text'.
Proof. unfold status_poll. intros H. injection H as -> ->. auto. Qed.

Lemma well_polled_app (t1 t2 : list event) :
  well_polled t1 -> well_polled t2 -> well_polled (t1 ++ t2).
Proof.
  intros H1 H2. induction t1 as [|e t1 IH]; [exact H2|].
  destruct H1 as [He H1]. cbn [app well_polled]. split; [|now apply IH].
  intros rid text E. destruct (He rid text E) as (response & post' & Hp).
  exists response, (post' ++ t2). rewrite Hp.
  destruct (status_of text) as [[|]|]; reflexivity.
Qed.

Lemma well_polled_followed (t : list event) :
  well_polled t -> polls_are_followed t.
Proof.
  intros H pre. revert t H. induction pre as [|x pre IH]; intros t H rid text post E.
  - subst t. destruct H as [He _]. now apply He.
  - subst t. destruct H as [_ H]. exact (IH _ H rid text post eq_refl).
Qed.

(** The polls on answers that do not say Ready, and then a status request:
    each answered poll is followed as it is to be. *)
Lemma well_polled_poll_trace (rid : str) (answers : list str)
      (response : option str) (tail : list event) :
  forallb (fun text => negb (is_ready text)) answers = true ->
  well_polled (status_poll rid response :: tail) ->
  well_polled (poll_trace rid answers ++ status_poll rid response :: tail).
Proof.
  intros Hb Ht. induction answers as [|a answers IH]; [exact Ht|].
  cbn [forallb] in Hb. apply andb_true_iff in Hb. destruct Hb as [Ha Hb].
  specialize (IH Hb).
  assert (Hn : exists r post',
             poll_trace rid answers ++ status_poll rid response :: tail
             = status_poll rid r :: post').
  { destruct answers as [|b answers]; [cbn; eauto|].
    unfold poll_trace, answered_poll. cbn [flat_map app]. eauto. }
  destruct Hn as (r & post' & Hn).
  unfold is_ready in Ha.
  change (poll_trace rid (a :: answers))
    with (answered_poll rid a ++ poll_trace rid answers).
  unfold answered_poll.
  destruct (status_of a) as [[|]|] eqn:Sa; try discriminate Ha;
    cbn [app well_polled]; (split; [|split; [intros ? ? E; discriminate E | exact IH]]);
    intros rid' text' E; apply status_poll_inj in E; destruct E as [<- <-];
    exists r, post'; rewrite Sa, Hn; reflexivity.
Qed.

Lemma process_chunk_well_polled (chunk : str) (results script : list str) :
  well_polled (fst (process_chunk chunk results script)).
Proof.
  assert (Hsub : forall response rid text,
             submission chunk response <> status_poll rid (Some text))
    by (intros; unfold submission, status_poll; discriminate).
  destruct script as [|text script].
  - rewrite process_chunk_starved. cbn. split; [|exact I].
    intros rid tx E. now apply Hsub in E.
  - rewrite process_chunk_run.
    destruct (contains (lit "RID = ") text && negb (falsy (Some (rid_of text)))).
    2:{ cbn. split; [intros rid tx E; now apply Hsub in E|].
        split; [intros rid tx E; discriminate E | exact I]. }
    destruct (first_ready script) as [Hn | (before & ready & rest & -> & Hb & Hr)].
    + rewrite (poll_until_ready_no_ready _ _ Hn). cbn [fst well_polled].
      split; [intros rid tx E; now apply Hsub in E|].
      apply well_polled_poll_trace; [exact Hn|].
      cbn. split; [|exact I]. intros rid tx E. unfold status_poll in E.
      discriminate E.
    + rewrite (poll_until_ready_to_ready _ _ _ _ Hb Hr).
      assert (G : forall response,
                 well_polled
                   (submission chunk (Some text)
                    :: poll_trace (rid_of text) (before ++ [ready])
                    ++ [results_fetch (rid_of text) response])).
      { intros response. cbn [well_polled].
        split; [intros rid tx E; now apply Hsub in E|].
        unfold poll_trace. rewrite flat_map_app. fold (poll_trace (rid_of text) before).
        cbn [flat_map]. rewrite app_nil_r. unfold answered_poll at 1.
        unfold is_ready in Hr.
        destruct (status_of ready) as [[|]|] eqn:Sr; try discriminate Hr.
        rewrite <- app_assoc. cbn [app].
        apply well_polled_poll_trace; [exact Hb|].
        cbn [well_polled]. split.
        - intros rid tx E. apply status_poll_inj in E. destruct E as [<- <-].
          exists response, []. now rewrite Sr.
        - split; [|exact I]. intros rid tx E.
          unfold results_fetch, status_poll in E. discriminate E. }
      destruct rest as [|report rest]; cbn [fst]; apply G.
Qed.

Lemma for_chunks_well_polled (chunks results script : list str) :
  well_polled (fst (for_chunks chunks results script)).
Proof.
  revert results script. induction chunks as [|chunk chunks IH]; intros results script.
  - exact I.
  - rewrite for_chunks_cons.
    pose proof (process_chunk_well_polled chunk results script) as H.
    destruct (process_chunk chunk results script) as [t [r s|e|]];
      cbn [fst] in *; try exact H.
    apply well_polled_app; [exact H | apply IH].
Qed.

(** C10. The polling loop as the driver runs it for a chunk whose
    submission gave the job identifier [rid].  When the answers to the
    status requests get to Ready, the driver makes one status request for
    each answer up to that one, sleeps 5 seconds after each answer that says
    Waiting and before the next request, prints the error after each answer
    that says neither and makes the next request with no sleep, and fetches
    the report right after the Ready answer, not before.  As long as no
    answer says Ready it goes on in this way, however many answers there
    are.  In every run of the loop over the chunks, each answered status
    request is followed in this way, and each fetch comes right after a
    status request of that job answered Ready.  The clauses on the loop
    taken alone are kept. *)
Theorem polling_loop (rid : str) :
  (forall chunks results script,
      fetch_follows_ready (fst (for_chunks chunks results script)))
  /\ (forall script a rest,
        snd (poll_until_ready rid script) = Done a rest ->
        exists t text,
          fst (poll_until_ready rid script) = t ++ [status_poll rid (Some text)]
          /\ status_of text = Some true)
  /\ (forall text script,
        status_of text = Some false ->
        poll_until_ready rid (text :: script)
        = followed_by [status_poll rid (Some text); Sleep 5]
                      (poll_until_ready rid script))
  /\ (forall text script,
        status_of text = None ->
        poll_until_ready rid (text :: script)
        = followed_by [status_poll rid (Some text); Print status_error_msg]
                      (poll_until_ready rid script))
  /\ (forall script,
        exists response t,
          fst (poll_until_ready rid script) = status_poll rid response :: t)
  /\ (forall text n,
        status_of text = None ->
        poll_until_ready rid (repeat text n)
        = (unknown_polls rid text n ++ [status_poll rid None], Pending))
  /\ (forall chunk results submitted before ready report rest,
        contains (lit "RID = ") submitted = true ->
        rid_of submitted = rid -> rid <> [] ->
        forallb (fun text => negb (is_ready text)) before = true ->
        is_ready ready = true ->
        process_chunk chunk results (submitted :: before ++ ready :: report :: rest)
        = (submission chunk (Some submitted)
             :: poll_trace rid (before ++ [ready])
             ++ [results_fetch rid (Some report)],
           Done (results ++ [report]) rest))
  /\ (forall chunk results submitted answers,
        contains (lit "RID = ") submitted = true ->
        rid_of submitted = rid -> rid <> [] ->
        forallb (fun text => negb (is_ready text)) answers = true ->
        process_chunk chunk results (submitted :: answers)
        = (submission chunk (Some submitted)
             :: poll_trace rid answers ++ [status_poll rid None],
           Pending))
  /\ (forall chunks results script,
        polls_are_followed (fst (for_chunks chunks results script))).
Proof.
  assert (Hrun : forall submitted,
             contains (lit "RID = ") submitted = true ->
             rid_of submitted = rid -> rid <> [] ->
             contains (lit "RID = ") submitted
             && negb (falsy (Some (rid_of submitted))) = true).
  { intros submitted Hc Hr Hne. rewrite Hc, Hr.
    destruct rid; [congruence | reflexivity]. }
  split; [intros; apply for_chunks_trace|].
  split.
  { intros script a rest H.
    destruct (poll_until_ready_shape rid script) as [_ Ho].
    rewrite H in Ho. exact Ho. }
  split; [intros text script H; now rewrite poll_until_ready_cons, H|].
  split; [intros text script H; now rewrite poll_until_ready_cons, H|].
  split.
  { intros [|text script].
    - rewrite poll_until_ready_nil. cbn. eauto.
    - rewrite poll_until_ready_cons.
      destruct (status_of text) as [[|]|]; cbn; eauto. }
  split; [intros text n H; now apply poll_until_ready_unknowns|].
  split.
  { intros chunk results submitted before ready report rest Hc Hr Hne Hb Hy.
    rewrite process_chunk_run, (Hrun submitted Hc Hr Hne), Hr.
    now rewrite (poll_until_ready_to_ready rid before ready (report :: rest) Hb Hy). }
  split.
  { intros chunk results submitted answers Hc Hr Hne Hb.
    rewrite process_chunk_run, (Hrun submitted Hc Hr Hne), Hr.
    now rewrite (poll_until_ready_no_ready rid answers Hb). }
  intros chunks results script. apply well_polled_followed, for_chunks_well_polled.
Qed.

Lemma polling_loop_witness :
  (status_of (lit "Status=WAITING") = Some false
   /\ poll_until_ready (lit "R1") [lit "Status=WAITING"; lit "Status=READY"]
      = followed_by [status_poll (lit "R1") (Some (lit "Status=WAITING")); Sleep 5]
                    (poll_until_ready (lit "R1") [lit "Status=READY"]))
  /\ (status_of (lit "busy") = None
      /\ poll_until_ready (lit "R1") (repeat (lit "busy") 3)
         = (unknown_polls (lit "R1") (lit "busy") 3
              ++ [status_poll (lit "R1") None], Pending))
  /\ (contains (lit "RID = ") (lit "RID = R1") = true
      /\ rid_of (lit "RID = R1") = lit "R1"
      /\ process_chunk (lit "ACGT") []
           (lit "RID = R1"
            :: [lit "Status=WAITING"; lit "busy"; lit "Status=WAITING"]
            ++ lit "Status=READY" :: lit "the report" :: [lit "left"])
         = ([submission (lit "ACGT") (Some (lit "RID = R1"));
             status_poll (lit "R1") (Some (lit "Status=WAITING")); Sleep 5;
             status_poll (lit "R1") (Some (lit "busy")); Print status_error_msg;
             status_poll (lit "R1") (Some (lit "Status=WAITING")); Sleep 5;
             status_poll (lit "R1") (Some (lit "Status=READY"));
             results_fetch (lit "R1") (Some (lit "the report"))],
            Done [lit "the report"] [lit "left"])
      /\ process_chunk (lit "ACGT") []
           (lit "RID = R1" :: [lit "busy"; lit "Status=WAITING"])
         = ([submission (lit "ACGT") (Some (lit "RID = R1"));
             status_poll (lit "R1") (Some (lit "busy")); Print status_error_msg;
             status_poll (lit "R1") (Some (lit "Status=WAITING")); Sleep 5;
             status_poll (lit "R1") None],
            Pending)).
Proof.
  pose proof (polling_loop (lit "R1")) as (_ & _ & Hw & _ & _ & Hu & Hd & Hp & _).
  split; [|split].
  - split; [reflexivity|]. apply Hw. reflexivity.
  - split; [reflexivity|]. apply Hu. reflexivity.
  - split; [reflexivity|]. split; [vm_compute; reflexivity|]. split.
    + rewrite (Hd (lit "ACGT") [] (lit "RID = R1")
                 [lit "Status=WAITING"; lit "busy"; lit "Status=WAITING"]
                 (lit "Status=READY") (lit "the report") [lit "left"]
                 ltac:(reflexivity) ltac:(vm_compute; reflexivity)
                 ltac:(discriminate) ltac:(reflexivity) ltac:(reflexivity)).
      reflexivity.
    + rewrite (Hp (lit "ACGT") [] (lit "RID = R1") [lit "busy"; lit "Status=WAITING"]
                 ltac:(reflexivity) ltac:(vm_compute; reflexivity)
                 ltac:(discriminate) ltac:(reflexivity)).
      reflexivity.
Defined.

(** ** A submission without a job identifier *)

(** C7. When the response to a submission holds no "RID = ",
    [submit_blast_query] returns [None]; the driver prints the error, raises
    nothing, leaves [results] as it is and goes on with the remaining
    chunks.  With one chunk only, [results] stays empty, the writer makes no
    write, and the output file is created with no line in it. *)
Theorem failed_submission_is_skipped (chunk text : str) :
  contains (lit "RID = ") text = false ->
  (forall script,
      submit_blast_query chunk (lit "nt") (lit "blastn") (text :: script)
      = ([submission chunk (Some text)], Done None script))
  /\ (forall rest results script,
        for_chunks (chunk :: rest) results (text :: script)
        = (submission chunk (Some text) :: Print submit_error_msg
             :: fst (for_chunks rest results script),
           snd (for_chunks rest results script)))
  /\ for_chunks [chunk] [] [text]
     = ([submission chunk (Some text); Print submit_error_msg], Done [] [])
  /\ write_results_to_file [chunk] [] = ([], None)
  /\ (forall argv fs now input_file,
        item argv 1 = Ok input_file ->
        process_sequence (fs input_file) default_max_sequence_length = Ok [chunk] ->
        main argv fs now [text]
        = ([submission chunk (Some text); Print submit_error_msg;
            WriteFile (output_file_name now) []; Print (output_file_name now)],
           Done tt [])).
Proof.
  intros H.
  assert (Hs : forall script,
             submit_blast_query chunk (lit "nt") (lit "blastn") (text :: script)
             = ([submission chunk (Some text)], Done None script)).
  { intros script. now rewrite submit_blast_query_run, H. }
  assert (Hf : forall rest results script,
             for_chunks (chunk :: rest) results (text :: script)
             = (submission chunk (Some text) :: Print submit_error_msg
                  :: fst (for_chunks rest results script),
                snd (for_chunks rest results script))).
  { intros rest results script.
    rewrite for_chunks_cons, process_chunk_run, H. reflexivity. }
  assert (H1 : for_chunks [chunk] [] [text]
               = ([submission chunk (Some text); Print submit_error_msg], Done [] [])).
  { rewrite Hf. reflexivity. }
  repeat split; try assumption.
  intros argv fs now input_file Hi Hp. unfold main.
  assert (Hl : (len argv <? 2) = false).
  { destruct argv as [|a [|b argv]]; try discriminate Hi.
    unfold len. cbn [length]. apply Z.ltb_ge. lia. }
  rewrite Hl. unfold bind at 1. unfold lift at 1. rewrite Hi.
  unfold bind at 1. unfold lift at 1. rewrite Hp.
  unfold bind at 1. rewrite H1. reflexivity.
Qed.

Lemma failed_submission_is_skipped_witness :
  contains (lit "RID = ") (lit "Service unavailable") = false
  /\ process_sequence (Some thirty) default_max_sequence_length = Ok [thirty]
  /\ main [lit "blast_process.py"; lit "input.txt"] (fun _ => Some thirty)
          (lit "20240101_120000") [lit "Service unavailable"]
     = ([submission thirty (Some (lit "Service unavailable"));
         Print submit_error_msg;
         WriteFile (output_file_name (lit "20240101_120000")) [];
         Print (output_file_name (lit "20240101_120000"))],
        Done tt []).
Proof.
  split; [reflexivity|]. split; [vm_compute; reflexivity|].
  apply (failed_submission_is_skipped thirty (lit "Service unavailable")
           ltac:(reflexivity)) with (input_file := lit "input.txt").
  - reflexivity.
  - vm_compute; reflexivity.
Defined.

(** ** write_results_to_file *)

Lemma chunk_parts_units (chunk : str) :
  chunk_parts chunk = Ok (units chunk)
  /\ split_sequence chunk 20 = Ok (units chunk).
Proof.
  assert (E : split_sequence chunk 20 = Ok (units chunk))
    by (apply split_sequence_pieces; lia).
  split; [exact E | exact E].
Qed.

Lemma numbered_app (n : Z) (a b : list (str * Z)) :
  numbered n (a ++ b) = numbered n a ++ numbered (n + len a) b.
Proof.
  revert n. induction a as [|[part id] a IH]; intros n.
  - cbn. now rewrite Z.add_0_r.
  - cbn [app numbered]. rewrite IH. unfold len. cbn [length].
    do 3 f_equal. lia.
Qed.

(** The inner loop appends one numbered line for each part. *)
Lemma write_parts (best_match_id : Z) (parts file : list str) (n : Z) :
  fold_left (write_part best_match_id) parts (file, n)
  = (file ++ numbered n (map (fun unit => (unit, best_match_id)) parts),
     n + len parts).
Proof.
  revert file n. induction parts as [|part parts IH]; intros file n.
  - cbn. now rewrite app_nil_r, Z.add_0_r.
  - cbn [fold_left write_part map numbered]. rewrite IH, <- app_assoc.
    unfold len. cbn [length app]. f_equal. lia.
Qed.

Lemma write_loop_numbered (chunks results : list str)
      (verdicts : list (Z * float * float)) :
  map parse_blast_result_detailed results = map Ok verdicts ->
  forall file n,
    write_loop (combine chunks results) file n
    = (file ++ numbered n (rows chunks (map (fun v => fst (fst v)) verdicts)), None).
Proof.
  revert results verdicts.
  induction chunks as [|chunk chunks IH]; intros results verdicts H file n.
  - cbn. now rewrite app_nil_r.
  - destruct results as [|r results]; destruct verdicts as [|[[id p] b] verdicts];
      try discriminate H.
    + cbn. now rewrite app_nil_r.
    + cbn [map] in H. injection H as Hr H.
      cbn [combine write_loop]. rewrite Hr.
      destruct (chunk_parts_units chunk) as [-> _].
      rewrite write_parts. rewrite (IH results verdicts H).
      unfold rows. cbn [map combine flat_map fst snd].
      rewrite numbered_app, <- app_assoc. unfold len. now rewrite length_map.
Qed.

Lemma match_id_values (xml_result : str) (id : Z) (p b : float) :
  parse_blast_result_detailed xml_result = Ok (id, p, b) -> id = 1 \/ id = -1.
Proof.
  unfold parse_blast_result_detailed.
  destruct (negb (contains iterations_marker xml_result)).
  - intros H. injection H as <- _ _. auto.
  - destruct (for_each Detailed.body (splitlines xml_result) Detailed.init) as [st|e];
      cbn [rbind]; [|discriminate].
    intros H. injection H as <- _ _.
    destruct (Detailed.matches st); auto.
Qed.

(** C4 as it is worded fails on a report that the parser cannot read: the
    chunk has one unit, and no line is written. *)
Lemma writer_stops_on_unreadable_report :
  length [lit "ACGT"] = length [unreadable_report]
  /\ units (lit "ACGT") = [lit "ACGT"]
  /\ write_results_to_file [lit "ACGT"] [unreadable_report] = ([], Some ValueError)
  /\ ~ one_line_per_unit [lit "ACGT"] [unreadable_report].
Proof.
  split; [reflexivity|]. split; [vm_compute; reflexivity|].
  assert (E : write_results_to_file [lit "ACGT"] [unreadable_report]
              = ([], Some ValueError)) by (vm_compute; reflexivity).
  split; [exact E|].
  intros (ids & Hl & _ & H). rewrite E in H. cbn [fst] in H.
  destruct ids as [|id [|id' ids]]; try discriminate Hl.
  vm_compute in H. discriminate H.
Qed.

(** C4, amended. For chunks and as many reports, each of which
    [parse_blast_result_detailed] reads without raising, the file gets one
    line [sequence_number,unit,best_match_id] for each 20-character unit of
    each chunk, in order; the numbers start at 1 and go up by 1 on each
    line through all chunks; the match id of a line is that of its chunk's
    report, 1 or -1. *)
Theorem writer_numbering (chunks results : list str)
        (verdicts : list (Z * float * float)) :
  length chunks = length results ->
  map parse_blast_result_detailed results = map Ok verdicts ->
  write_results_to_file chunks results
  = (numbered 1 (rows chunks (map (fun v => fst (fst v)) verdicts)), None)
  /\ length verdicts = length chunks
  /\ Forall (fun id => id = 1 \/ id = -1) (map (fun v => fst (fst v)) verdicts)
  /\ Forall (fun chunk => split_sequence chunk 20 = Ok (units chunk)) chunks.
Proof.
  intros Hl H. split; [|split; [|split]].
  - unfold write_results_to_file. now rewrite (write_loop_numbered _ _ _ H).
  - rewrite Hl, <- (length_map parse_blast_result_detailed results), H.
    now rewrite length_map.
  - clear Hl. revert verdicts H. induction results as [|r results IH];
      intros [|[[id p] b] verdicts] H; try discriminate H; cbn [map].
    + constructor.
    + cbn [map] in H. injection H as Hr H. constructor.
      * cbn [fst]. eapply match_id_values; eassumption.
      * now apply IH.
  - apply Forall_forall. intros chunk _. apply chunk_parts_units.
Qed.

Lemma writer_numbering_witness :
  length [chunk25a; chunk25c]
  = length [one_record_report "100" "100" "54999"; record_without_marker]
  /\ map parse_blast_result_detailed
         [one_record_report "100" "100" "54999"; record_without_marker]
     = map Ok [(1, float_of_Z 100, float_of_Z 54999); (-1, zero, zero)]
  /\ write_results_to_file [chunk25a; chunk25c]
       [one_record_report "100" "100" "54999"; record_without_marker]
     = (numbered 1 (rows [chunk25a; chunk25c] [1; -1]), None).
Proof.
  split; [reflexivity|]. split; [vm_compute; reflexivity|].
  apply (writer_numbering [chunk25a; chunk25c]
           [one_record_report "100" "100" "54999"; record_without_marker]
           [(1, float_of_Z 100, float_of_Z 54999); (-1, zero, zero)]).
  - reflexivity.
  - vm_compute; reflexivity.
Defined.

(** Two chunks of 25 characters: four lines, numbered 1, 2, 3, 4. *)
Lemma two_chunks_of_25 :
  numbered 1 (rows [chunk25a; chunk25c] [1; -1])
  = [lit ("1,AAAAAAAAAAAAAAAAAAAA,1" ++ nl); lit ("2,AAAAA,1" ++ nl);
     lit ("3,CCCCCCCCCCCCCCCCCCCC,-1" ++ nl); lit ("4,CCCCC,-1" ++ nl)].
Proof. vm_compute; reflexivity. Qed.

(** ** The two parsers side by side *)

Lemma startswith_app (x m b : str) :
  startswith x m = true -> startswith (x ++ b) m = true.
Proof.
  revert m. induction x as [|c x IH]; intros [|a m] H.
  - now destruct b.
  - discriminate H.
  - reflexivity.
  - cbn [startswith app] in H |- *.
    apply andb_true_iff in H. destruct H as [H1 H2].
    rewrite H1. cbn [andb]. now apply IH.
Qed.

Lemma contains_app_l (m x b : str) :
  contains m x = true -> contains m (x ++ b) = true.
Proof.
  induction x as [|c x IH]; intros H.
  - cbn in H. rewrite orb_false_r in H.
    destruct m; [|discriminate H]. destruct b; reflexivity.
  - cbn [contains] in H. cbn [app contains].
    apply orb_true_iff in H. apply orb_true_iff. destruct H as [H|H].
    + left. now apply (startswith_app (c :: x)).
    + right. now apply IH.
Qed.

Lemma contains_app_r (m a x : str) :
  contains m x = true -> contains m (a ++ x) = true.
Proof.
  intros H. induction a as [|c a IH]; [exact H|].
  cbn [app contains]. rewrite IH. apply orb_true_r.
Qed.

Lemma contains_strip (m line : str) :
  contains m (strip line) = true -> contains m line = true.
Proof.
  intros H. destruct (strip_spec line) as (a & b & E & _).
  rewrite E. now apply contains_app_r, contains_app_l.
Qed.

Lemma markers_in_strip (line : str) :
  (markers_in (strip line) <= markers_in line)%nat.
Proof.
  unfold markers_in.
  pose proof (contains_strip identity_marker line) as H1.
  pose proof (contains_strip align_len_marker line) as H2.
  pose proof (contains_strip bit_score_marker line) as H3.
  destruct (contains identity_marker (strip line));
    destruct (contains align_len_marker (strip line));
    destruct (contains bit_score_marker (strip line));
    rewrite ?H1, ?H2, ?H3 by reflexivity; cbn; lia.
Qed.

(** On a line with one field at most, the two loop bodies do the same. *)
Lemma bodies_agree (s s' : Simple.locals) (d : Detailed.locals) (line : str) :
  same_locals s d -> (markers_in line <= 1)%nat ->
  Simple.body s line = Ok s' ->
  exists d', Detailed.body d line = Ok d' /\ same_locals s' d'.
Proof.
  intros (Hm & Hp & Hb & Ha & Hi) Hone H.
  pose proof (markers_in_strip line) as Hs. unfold markers_in in Hs at 1.
  unfold Simple.body in H. unfold Detailed.body.
  destruct (contains identity_marker (strip line)) eqn:E1;
    destruct (contains align_len_marker (strip line)) eqn:E2;
    destruct (contains bit_score_marker (strip line)) eqn:E3;
    cbn [Nat.add] in Hs; try lia; clear Hs.
  - (* an identity line *)
    destruct (int_field (strip line)) as [v|e]; cbn [rbind] in H |- *;
      [|discriminate H].
    injection H as <-. eexists. split; [reflexivity|].
    repeat split; cbn; auto.
  - (* an alignment-length line *)
    destruct (int_field (strip line)) as [v|e]; cbn [rbind] in H |- *;
      [|discriminate H].
    injection H as <-. eexists. split; [reflexivity|].
    repeat split; cbn; auto.
  - (* a bit-score line *)
    cbn [rbind] in H.
    destruct (float_field (strip line)) as [b|e]; cbn [rbind] in H |- *;
      [|discriminate H].
    assert (Hu : Detailed.usable (Detailed.align_len d) = (Simple.align_len s >? 0)
                 /\ (Detailed.usable (Detailed.align_len d) = true ->
                     match Detailed.align_len d with Some a => a | None => 0 end
                     = Simple.align_len s)).
    { destruct Ha as [Ha | [Ha Ha']]; rewrite Ha; cbn [Detailed.usable].
      - split; [|reflexivity].
        destruct (Z.eqb_spec (Simple.align_len s) 0) as [->|N]; [reflexivity|].
        reflexivity.
      - rewrite Ha'. split; [reflexivity | discriminate]. }
    destruct Hu as [Hu1 Hu2]. rewrite Hu1.
    destruct (Simple.align_len s >? 0) eqn:G.
    + rewrite Hu2 by (now rewrite Hu1).
      destruct (Simple.identity s) as [i|] eqn:I; cbn [rbind] in H;
        [|discriminate H].
      destruct Hi as [Hi | [Hi _]]; [|discriminate Hi].
      injection Hi as <-.
      destruct (int_true_divide i (Simple.align_len s)) as [q|e];
        cbn [rbind] in H |- *; [|discriminate H].
      injection H as <-. eexists. split; [reflexivity|].
      rewrite Hm. repeat split; cbn; auto.
    + cbn [rbind] in H |- *. injection H as <-.
      eexists. split; [reflexivity|].
      rewrite Hm, Hp. repeat split; cbn; auto.
  - (* a line without a field *)
    cbn [rbind] in H. injection H as <-. exists d. split; [reflexivity|].
    repeat split; auto.
Qed.

Lemma scans_agree (lines : list str) :
  Forall (fun line => (markers_in line <= 1)%nat) lines ->
  forall s s' d,
    same_locals s d ->
    for_each Simple.body lines s = Ok s' ->
    exists d', for_each Detailed.body lines d = Ok d' /\ same_locals s' d'.
Proof.
  induction 1 as [|line lines Hl _ IH]; intros s s' d R H.
  - cbn in H |- *. injection H as <-. eauto.
  - cbn [for_each] in H |- *.
    destruct (Simple.body s line) as [s1|e] eqn:B; cbn [rbind] in H;
      [|discriminate H].
    destruct (bodies_agree s s1 d line R Hl B) as (d1 & -> & R1).
    cbn [rbind]. now apply (IH s1 s' d1).
Qed.

Lemma same_locals_init : same_locals Simple.init Detailed.init.
Proof. repeat split; cbn; auto. Qed.

(** The two parsers part on a line with several fields: the simple one
    reads the first field three times and finds a match, the detailed one
    reads it once, as an identity count, and finds none. *)
Lemma parsers_disagree :
  parse_blast_result three_fields_on_a_line = Ok 1
  /\ parse_blast_result_detailed three_fields_on_a_line = Ok (-1, zero, zero)
  /\ ~ (forall xml_result v v' p b,
          parse_blast_result xml_result = Ok v ->
          parse_blast_result_detailed xml_result = Ok (v', p, b) ->
          v = v').
Proof.
  assert (E1 : parse_blast_result three_fields_on_a_line = Ok 1)
    by (vm_compute; reflexivity).
  assert (E2 : parse_blast_result_detailed three_fields_on_a_line = Ok (-1, zero, zero))
    by (vm_compute; reflexivity).
  repeat split; try assumption.
  intros H. specialize (H _ _ _ _ _ E1 E2). discriminate H.
Qed.

(** C8, amended. On a report none of whose lines holds more than one of
    the three field markers, if [parse_blast_result] returns a match id,
    then [parse_blast_result_detailed] returns the same one; so the two
    agree on each such report on which both return. *)
Theorem parsers_agree (xml_result : str) (v : Z) :
  one_field_a_line xml_result ->
  parse_blast_result xml_result = Ok v ->
  (v = 1 \/ v = -1)
  /\ (exists p b, parse_blast_result_detailed xml_result = Ok (v, p, b))
  /\ (forall v' p b,
        parse_blast_result_detailed xml_result = Ok (v', p, b) -> v' = v).
Proof.
  intros Hone H.
  assert (G : exists p b, parse_blast_result_detailed xml_result = Ok (v, p, b)).
  { unfold parse_blast_result in H. unfold parse_blast_result_detailed.
    destruct (negb (contains iterations_marker xml_result)).
    - injection H as <-. eauto.
    - destruct (for_each Simple.body (splitlines xml_result) Simple.init)
        as [s|e] eqn:F; cbn [rbind] in H; [|discriminate H].
      destruct (scans_agree _ Hone _ _ _ same_locals_init F) as (d & -> & R).
      cbn [rbind]. destruct R as (Hm & _). rewrite <- Hm.
      injection H as <-. eauto. }
  destruct G as (p & b & G). split; [|split].
  - eapply match_id_values; eassumption.
  - eauto.
  - intros v' p' b' G'. rewrite G in G'. now injection G' as <- _ _.
Qed.

Lemma parsers_agree_witness :
  one_field_a_line (one_record_report "100" "100" "54999")
  /\ parse_blast_result (one_record_report "100" "100" "54999") = Ok 1
  /\ (exists p b,
        parse_blast_result_detailed (one_record_report "100" "100" "54999")
        = Ok (1, p, b)).
Proof.
  assert (H1 : one_field_a_line (one_record_report "100" "100" "54999")).
  { unfold one_field_a_line.
    repeat (constructor; [vm_compute; repeat constructor|]).
    vm_compute. constructor. }
  assert (H2 : parse_blast_result (one_record_report "100" "100" "54999") = Ok 1)
    by (vm_compute; reflexivity).
  split; [exact H1|]. split; [exact H2|].
  exact (proj1 (proj2 (parsers_agree _ _ H1 H2))).
Defined.

(** ** Percent identity in parse_blast_result_detailed *)

Lemma for_each_app {S A : Type} (body : S -> A -> result S) (l1 l2 : list A) (st : S) :
  for_each body (l1 ++ l2) st
  = (st' <- for_each body l1 st ;; for_each body l2 st').
Proof.
  revert st. induction l1 as [|a l1 IH]; intros st; [reflexivity|].
  cbn [app for_each]. destruct (body st a); cbn [rbind]; [apply IH | reflexivity].
Qed.

(** A line that is not a bit-score line leaves both scores and the list of
    matches as they are. *)
Lemma body_keeps_scores (st st' : Detailed.locals) (line : str) :
  Detailed.body st line = Ok st' -> is_bit_score_line line = false ->
  Detailed.percent_identity st' = Detailed.percent_identity st
  /\ Detailed.bit_score st' = Detailed.bit_score st
  /\ Detailed.matches st' = Detailed.matches st.
Proof.
  unfold Detailed.body, is_bit_score_line, kind. intros H K.
  destruct (contains identity_marker (strip line)).
  - destruct (int_field (strip line)); [|discriminate H].
    cbn [rbind] in H. injection H as <-. auto.
  - destruct (contains align_len_marker (strip line)).
    + destruct (int_field (strip line)); [|discriminate H].
      cbn [rbind] in H. injection H as <-. auto.
    + destruct (contains bit_score_marker (strip line)); [discriminate K|].
      injection H as <-. auto.
Qed.

Lemma usable_positive (a : Z) : Detailed.usable (Some a) = (0 <? a).
Proof.
  cbn [Detailed.usable]. destruct (Z.eqb_spec a 0) as [->|N]; [reflexivity|].
  cbn [negb andb]. now rewrite Z.gtb_ltb.
Qed.

(** A bit-score line sets [bit_score] to its field, and [percent_identity]
    to [(identity / align_len) * 100] on the identity count and alignment
    length at hand when that length is there and positive; if not,
    [percent_identity] stays. *)
Lemma body_bit_score (st st' : Detailed.locals) (line : str) :
  Detailed.body st line = Ok st' -> is_bit_score_line line = true ->
  float_field (strip line) = Ok (Detailed.bit_score st')
  /\ Detailed.identity st' = Detailed.identity st
  /\ Detailed.align_len st' = Detailed.align_len st
  /\ match Detailed.align_len st with
     | Some a =>
         if 0 <? a then
           exists q, int_true_divide (Detailed.identity st) a = Ok q
                     /\ Detailed.percent_identity st' = float_mul q (float_of_Z 100)
         else Detailed.percent_identity st' = Detailed.percent_identity st
     | None => Detailed.percent_identity st' = Detailed.percent_identity st
     end.
Proof.
  unfold Detailed.body, is_bit_score_line, kind. intros H K.
  destruct (contains identity_marker (strip line)); [discriminate K|].
  destruct (contains align_len_marker (strip line)); [discriminate K|].
  destruct (contains bit_score_marker (strip line)); [|discriminate K].
  destruct (float_field (strip line)) as [b|e]; [|discriminate H].
  cbn [rbind] in H.
  destruct (Detailed.align_len st) as [a|] eqn:Ea.
  - rewrite usable_positive in H. destruct (0 <? a).
    + destruct (int_true_divide (Detailed.identity st) a) as [q|e];
        [|discriminate H].
      cbn [rbind] in H. injection H as <-. cbn. rewrite ?Ea. eauto 6.
    + cbn [rbind] in H. injection H as <-. cbn. rewrite ?Ea. auto.
  - cbn [Detailed.usable rbind] in H. injection H as <-. cbn. rewrite ?Ea. auto.
Qed.

(** The locals [identity] and [align_len] hold the most recently seen
    numbers. *)
Lemma scan_recent (lines : list str) :
  forall st st',
    for_each Detailed.body lines st = Ok st' ->
    Detailed.identity st' = last (identities_seen lines) (Detailed.identity st)
    /\ Detailed.align_len st'
       = last (map Some (align_lens_seen lines)) (Detailed.align_len st).
Proof.
  induction lines as [|line lines IH]; intros st st' H.
  - cbn in H. injection H as <-. auto.
  - cbn [for_each] in H.
    destruct (Detailed.body st line) as [st1|e] eqn:B; [|discriminate H].
    cbn [rbind] in H. destruct (IH st1 st' H) as [-> ->]. clear IH H.
    unfold identities_seen, align_lens_seen. cbn [flat_map].
    fold (identities_seen lines). fold (align_lens_seen lines).
    unfold Detailed.body in B. unfold kind.
    destruct (contains identity_marker (strip line)).
    + destruct (int_field (strip line)) as [v|e]; [|discriminate B].
      cbn [rbind] in B. injection B as <-. cbn [app map Detailed.identity Detailed.align_len].
      now rewrite last_cons.
    + destruct (contains align_len_marker (strip line)).
      * destruct (int_field (strip line)) as [v|e]; [|discriminate B].
        cbn [rbind] in B. injection B as <-.
        cbn [app map Detailed.identity Detailed.align_len].
        now rewrite last_cons.
      * destruct (contains bit_score_marker (strip line)).
        -- destruct (float_field (strip line)) as [b|e]; [|discriminate B].
           cbn [rbind] in B.
           destruct (if Detailed.usable (Detailed.align_len st)
                     then q <- int_true_divide (Detailed.identity st)
                                 match Detailed.align_len st with
                                 | Some a => a
                                 | None => 0
                                 end ;; Ok (float_mul q (float_of_Z 100))
                     else Ok (Detailed.percent_identity st)) as [p|e];
             [|discriminate B].
           cbn [rbind] in B. injection B as <-.
           destruct (int_field (strip line)); cbn; auto.
        -- injection B as <-. destruct (int_field (strip line)); cbn; auto.
Qed.

Lemma scan_keeps_scores (lines : list str) :
  forallb (fun l => negb (is_bit_score_line l)) lines = true ->
  forall st st',
    for_each Detailed.body lines st = Ok st' ->
    Detailed.percent_identity st' = Detailed.percent_identity st
    /\ Detailed.bit_score st' = Detailed.bit_score st.
Proof.
  induction lines as [|line lines IH]; intros Hn st st' H.
  - cbn in H. injection H as <-. auto.
  - cbn [forallb] in Hn. apply andb_true_iff in Hn. destruct Hn as [Hl Hn].
    apply negb_true_iff in Hl. cbn [for_each] in H.
    destruct (Detailed.body st line) as [st1|e] eqn:B; [|discriminate H].
    cbn [rbind] in H. destruct (IH Hn st1 st' H) as [-> ->].
    destruct (body_keeps_scores st st1 line B Hl) as (? & ? & _). auto.
Qed.

(** C2. In [parse_blast_result_detailed], a line that is not a bit-score
    line changes neither [percent_identity] nor [bit_score]; with no
    bit-score line at all both are returned as 0.0.  At the last bit-score
    line of the report, [bit_score] becomes the field of that line, and
    [percent_identity] becomes [(identity / align_len) * 100] on the most
    recently seen identity count and alignment length, when an alignment
    length has been seen and is positive; when not, it keeps the value it
    had after the lines before.  Those two values are the ones returned,
    whether or not that record qualified. *)
Theorem percent_identity_at_bit_score (xml_result : str) (id : Z) (p b : float) :
  contains iterations_marker xml_result = true ->
  parse_blast_result_detailed xml_result = Ok (id, p, b) ->
  (forall st line st',
      Detailed.body st line = Ok st' -> is_bit_score_line line = false ->
      Detailed.percent_identity st' = Detailed.percent_identity st
      /\ Detailed.bit_score st' = Detailed.bit_score st)
  /\ (forallb (fun l => negb (is_bit_score_line l)) (splitlines xml_result) = true ->
      p = zero /\ b = zero)
  /\ (forall pre line post,
        splitlines xml_result = pre ++ line :: post ->
        is_bit_score_line line = true ->
        forallb (fun l => negb (is_bit_score_line l)) post = true ->
        exists st,
          for_each Detailed.body pre Detailed.init = Ok st
          /\ float_field (strip line) = Ok b
          /\ match recent_align_len pre with
             | Some a =>
                 if 0 <? a then
                   exists q, int_true_divide (recent_identity pre) a = Ok q
                             /\ p = float_mul q (float_of_Z 100)
                 else p = Detailed.percent_identity st
             | None => p = Detailed.percent_identity st
             end).
Proof.
  intros Hm H. unfold parse_blast_result_detailed in H. rewrite Hm in H.
  cbn [negb] in H.
  destruct (for_each Detailed.body (splitlines xml_result) Detailed.init)
    as [stf|e] eqn:F; [|discriminate H].
  cbn [rbind] in H. injection H as _ <- <-.
  split; [|split].
  - intros st line st' B K.
    destruct (body_keeps_scores st st' line B K) as (? & ? & _). auto.
  - intros Hn. exact (scan_keeps_scores _ Hn _ _ F).
  - intros pre line post E K Hn. rewrite E, for_each_app in F.
    destruct (for_each Detailed.body pre Detailed.init) as [st|e] eqn:Fpre;
      [|discriminate F].
    cbn [rbind for_each] in F.
    destruct (Detailed.body st line) as [st1|e] eqn:B; [|discriminate F].
    cbn [rbind] in F.
    destruct (scan_keeps_scores post Hn st1 stf F) as [-> ->].
    destruct (body_bit_score st st1 line B K) as (Hb & _ & _ & Hp).
    destruct (scan_recent pre _ _ Fpre) as [Hi Ha].
    exists st. split; [reflexivity|]. split; [exact Hb|].
    unfold recent_align_len, recent_identity.
    cbn [Detailed.init Detailed.identity Detailed.align_len] in Hi, Ha.
    rewrite <- Ha, <- Hi. exact Hp.
Qed.

Lemma percent_identity_at_bit_score_witness :
  contains iterations_marker carried_over_report = true
  /\ parse_blast_result_detailed carried_over_report
     = Ok (1, float_of_Z 100, float_of_Z 10)
  /\ recent_align_len (firstn 6 (splitlines carried_over_report)) = Some 0
  /\ exists st,
       for_each Detailed.body (firstn 6 (splitlines carried_over_report))
                Detailed.init = Ok st
       /\ float_field (strip (lit "<Hsp_bit-score>10</Hsp_bit-score>"))
          = Ok (float_of_Z 10)
       /\ float_of_Z 100 = Detailed.percent_identity st.
Proof.
  assert (H1 : contains iterations_marker carried_over_report = true)
    by (vm_compute; reflexivity).
  assert (H2 : parse_blast_result_detailed carried_over_report
               = Ok (1, float_of_Z 100, float_of_Z 10))
    by (vm_compute; reflexivity).
  split; [exact H1|]. split; [exact H2|]. split; [vm_compute; reflexivity|].
  destruct (percent_identity_at_bit_score _ _ _ _ H1 H2) as (_ & _ & H3).
  destruct (H3 (firstn 6 (splitlines carried_over_report))
               (lit "<Hsp_bit-score>10</Hsp_bit-score>")
               (skipn 7 (splitlines carried_over_report))
               ltac:(vm_compute; reflexivity) ltac:(vm_compute; reflexivity)
               ltac:(vm_compute; reflexivity))
    as (st & F & Hb & Hp).
  exists st. split; [exact F|]. split; [exact Hb|].
  replace (recent_align_len (firstn 6 (splitlines carried_over_report)))
    with (Some 0) in Hp by (vm_compute; reflexivity).
  exact Hp.
Defined.

(** * Further properties of the code *)

(** ** split_sequence: edge cases and the sizes of the chunks *)

(** X1. A chunk size of 0 makes [split_sequence] raise ValueError (the step
    of [range]); a negative chunk size gives no chunk at all, whatever the
    sequence; and the empty sequence gives no chunk for any other size. *)
Theorem split_sequence_edges {A : Type} (s : list A) :
  split_sequence s 0 = Raise ValueError
  /\ (forall C, C < 0 -> split_sequence s C = Ok [])
  /\ (forall C, C <> 0 -> split_sequence (@nil A) C = Ok []).
Proof.
  split; [reflexivity|]. split.
  - intros C HC. unfold split_sequence, py_range, range_len.
    destruct (Z.eqb_spec C 0) as [->|_]; [lia|].
    destruct (Z.ltb_spec 0 C); [lia|].
    destruct (Z.ltb_spec (len s) 0) as [H'|_]; [unfold len in H'; lia|].
    reflexivity.
  - intros C HC. unfold split_sequence, py_range, range_len.
    destruct (Z.eqb_spec C 0) as [->|_]; [lia|].
    destruct (0 <? C); reflexivity.
Qed.

Lemma split_sequence_edges_witness :
  -3 < 0 /\ split_sequence (lit "ACGT") (-3) = Ok [].
Proof.
  split; [lia|].
  apply (proj1 (proj2 (split_sequence_edges (lit "ACGT")))). lia.
Defined.

Lemma range_len_ceiling (n C : Z) :
  0 < C -> 0 <= n -> range_len 0 n C = (n + C - 1) / C.
Proof.
  intros HC Hn. destruct (Z.eq_dec n 0) as [->|N].
  - unfold range_len. destruct (Z.ltb_spec 0 C); [|lia].
    cbn. symmetry. apply Z.div_small. lia.
  - destruct (range_len_chunks n C HC ltac:(lia)) as (-> & _).
    replace (n + C - 1) with (n - 1 + 1 * C) by lia.
    rewrite Z.div_add by lia. reflexivity.
Qed.

Lemma range_len_nonneg (n C : Z) : 0 < C -> 0 <= n -> 0 <= range_len 0 n C.
Proof.
  intros HC Hn. rewrite range_len_ceiling by assumption. apply Z.div_pos; lia.
Qed.

(** No chunk of a positive width is empty or wider than asked. *)
Lemma pieces_sizes {A : Type} (s : list A) (C : Z) :
  0 < C ->
  Forall (fun chunk => 0 < len chunk <= C)
         (pieces s (Z.to_nat C) (Z.to_nat (range_len 0 (len s) C))).
Proof.
  intros HC. unfold pieces. apply Forall_forall. intros chunk Hin.
  apply in_map_iff in Hin. destruct Hin as (k & <- & Hk).
  apply in_seq in Hk. unfold len in *.
  rewrite length_firstn, length_skipn.
  destruct (Z_le_gt_dec (Z.of_nat (length s)) 0) as [Hz|Hz].
  - unfold range_len in Hk. destruct (Z.ltb_spec 0 C); [|lia].
    destruct (Z.ltb_spec 0 (Z.of_nat (length s))); [lia|]. cbn in Hk. lia.
  - destruct (range_len_chunks (Z.of_nat (length s)) C HC ltac:(lia))
      as (Hr & Hb & _).
    rewrite Hr in Hk.
    assert (0 <= (Z.of_nat (length s) - 1) / C) by (apply Z.div_pos; lia).
    assert (Z.of_nat k <= (Z.of_nat (length s) - 1) / C) by lia.
    nia.
Qed.

(** X2. For a positive chunk size [C], [split_sequence] returns
    [ceil(len(s) / C)] chunks, and no chunk is empty or longer than [C]. *)
Theorem split_sequence_chunk_sizes {A : Type} (s : list A) (C : Z) :
  0 < C ->
  exists chunks,
    split_sequence s C = Ok chunks
    /\ len chunks = (len s + C - 1) / C
    /\ Forall (fun chunk => 0 < len chunk <= C) chunks.
Proof.
  intros HC. rewrite split_sequence_pieces by exact HC.
  eexists. split; [reflexivity|].
  assert (Hn : 0 <= len s) by (unfold len; lia).
  split; [|now apply pieces_sizes].
  unfold len at 1.
  rewrite pieces_length, Z2Nat.id by (now apply range_len_nonneg).
  now apply range_len_ceiling.
Qed.

Lemma split_sequence_chunk_sizes_witness :
  0 < 3 /\
  exists chunks,
    split_sequence (lit "ACGTACG") 3 = Ok chunks
    /\ len chunks = (len (lit "ACGTACG") + 3 - 1) / 3
    /\ Forall (fun chunk => 0 < len chunk <= 3) chunks.
Proof.
  split; [lia | apply (split_sequence_chunk_sizes (lit "ACGTACG") 3); lia].
Defined.

(** ** process_sequence: how much is submitted *)

(** X3. For a file that is read as the text [content] and a non-negative
    [max_sequence_length], [process_sequence] returns at most
    [ceil(max_sequence_length / 1000)] chunks (five for the default 5000),
    none empty and none longer than 1000 characters. *)
Theorem process_sequence_bounds (content : str) (max_sequence_length : Z) :
  0 <= max_sequence_length ->
  exists chunks,
    process_sequence (Some content) max_sequence_length = Ok chunks
    /\ len chunks <= (max_sequence_length + 999) / 1000
    /\ Forall (fun chunk => 0 < len chunk <= 1000) chunks.
Proof.
  intros Hmax. unfold process_sequence.
  rewrite py_slice_prefix by exact Hmax.
  set (kept := firstn (Z.to_nat max_sequence_length) (snd (read_sequence content))).
  rewrite split_sequence_pieces by reflexivity.
  eexists. split; [reflexivity|].
  assert (Hn : 0 <= len kept) by (unfold len; lia).
  split; [|apply (pieces_sizes kept default_chunk_size); reflexivity].
  pose proof (range_len_nonneg (len kept) default_chunk_size
                ltac:(reflexivity) Hn) as Hr.
  rewrite (range_len_ceiling (len kept) default_chunk_size
             ltac:(reflexivity) Hn) in *.
  unfold len, str in *. rewrite pieces_length, Z2Nat.id by exact Hr.
  unfold default_chunk_size, kept. rewrite length_firstn.
  apply Z.div_le_mono; lia.
Qed.

Lemma process_sequence_bounds_witness :
  0 <= default_max_sequence_length /\
  exists chunks,
    process_sequence (Some thirty) default_max_sequence_length = Ok chunks
    /\ len chunks <= 5
    /\ Forall (fun chunk => 0 < len chunk <= 1000) chunks.
Proof.
  split; [discriminate|].
  exact (process_sequence_bounds thirty default_max_sequence_length
           ltac:(discriminate)).
Defined.

(** ** process_sequence: no line break gets into a chunk *)

Lemma is_eol_isspace (c : ascii) : is_eol c = true -> py_isspace c = true.
Proof.
  unfold is_eol, py_isspace. intros H. apply orb_true_iff in H.
  destruct H as [H|H]; apply Z.eqb_eq in H; rewrite H; reflexivity.
Qed.

Lemma Forall_firstn {A : Type} (P : A -> Prop) (n : nat) (l : list A) :
  Forall P l -> Forall P (firstn n l).
Proof.
  intros H. rewrite <- (firstn_skipn n l) in H. now apply Forall_app in H.
Qed.

Lemma Forall_skipn {A : Type} (P : A -> Prop) (n : nat) (l : list A) :
  Forall P l -> Forall P (skipn n l).
Proof.
  intros H. rewrite <- (firstn_skipn n l) in H. now apply Forall_app in H.
Qed.

Lemma Forall_py_slice {A : Type} (P : A -> Prop) (s : list A) (lo hi : option Z) :
  Forall P s -> Forall P (py_slice s lo hi).
Proof. intros H. unfold py_slice. now apply Forall_firstn, Forall_skipn. Qed.

Lemma Forall_split_sequence {A : Type} (P : A -> Prop) (s : list A) (C : Z)
      (chunks : list (list A)) :
  Forall P s -> split_sequence s C = Ok chunks -> Forall (Forall P) chunks.
Proof.
  intros H E. unfold split_sequence in E.
  destruct (py_range 0 (len s) C) as [idx|e]; [|discriminate E].
  cbn [rbind] in E. injection E as <-.
  apply Forall_forall. intros chunk Hin. apply in_map_iff in Hin.
  destruct Hin as (i & <- & _). now apply Forall_py_slice.
Qed.

(** Each line that the file yields is free of line breaks, but for a final
    "\n". *)
Lemma file_lines_go_shape (s acc : str) :
  one_line acc ->
  Forall (fun l => exists body, one_line body /\ (l = body \/ l = body ++ [newline]))
         (file_lines_go s acc).
Proof.
  revert acc. induction s as [|c s IH]; intros acc Hacc.
  - cbn. destruct acc as [|a acc']; constructor; [|constructor].
    exists (rev (a :: acc')). split; [|now left].
    unfold one_line. now apply Forall_rev.
  - assert (Hhead : exists body, one_line body
                      /\ (rev (newline :: acc) = body
                          \/ rev (newline :: acc) = body ++ [newline])).
    { exists (rev acc). split; [now apply Forall_rev | now right]. }
    cbn [file_lines_go]. destruct (code c =? 10) eqn:E10.
    + constructor; [exact Hhead | apply IH; constructor].
    + destruct (code c =? 13) eqn:E13.
      * constructor; [exact Hhead|].
        destruct s as [|d s']; [constructor|].
        specialize (IH [] ltac:(constructor)).
        destruct (code d =? 10) eqn:D10; [|exact IH].
        cbn [file_lines_go] in IH. rewrite D10 in IH.
        now inversion IH.
      * apply IH. constructor; [|exact Hacc].
        unfold is_eol. now rewrite E10, E13.
Qed.

Lemma strip_one_line (line body : str) :
  one_line body -> line = body \/ line = body ++ [newline] ->
  one_line (strip line).
Proof.
  intros Hb Hl. destruct (strip_spec line) as (a & b & E & _ & _ & _ & Ht).
  destruct Hl as [->| ->].
  - rewrite E in Hb. apply Forall_app in Hb. destruct Hb as [_ Hb].
    now apply Forall_app in Hb.
  - destruct b as [|z b' _] using rev_ind.
    + rewrite app_nil_r in E.
      destruct (strip (body ++ [newline])) as [|z x' _] eqn:Es using rev_ind;
        [constructor|].
      rewrite app_assoc in E. apply app_inj_tail in E. destruct E as [_ <-].
      rewrite rev_app_distr in Ht. cbn in Ht. discriminate Ht.
    + rewrite !app_assoc in E. apply app_inj_tail in E. destruct E as [E _].
      rewrite E in Hb. apply Forall_app in Hb. destruct Hb as [Hb _].
      now apply Forall_app in Hb.
Qed.

Lemma raw_sequence_one_line (content : str) :
  one_line (snd (read_sequence content)).
Proof.
  unfold read_sequence. rewrite read_loop. cbn [snd app].
  apply Forall_concat, Forall_forall. intros x Hin.
  apply in_map_iff in Hin. destruct Hin as (line & <- & Hin).
  apply filter_In in Hin. destruct Hin as [Hin _].
  pose proof (file_lines_go_shape content [] ltac:(constructor)) as H.
  rewrite Forall_forall in H. destruct (H line Hin) as (body & Hb & Hl).
  now apply (strip_one_line line body).
Qed.

(** X4. No chunk that [process_sequence] returns holds a line feed or a
    carriage return, whatever the line ends of the file are and whatever
    [max_sequence_length] is. *)
Theorem chunks_hold_no_line_break (content : str) (max_sequence_length : Z)
        (chunks : list str) :
  process_sequence (Some content) max_sequence_length = Ok chunks ->
  Forall one_line chunks.
Proof.
  unfold process_sequence. intros H.
  eapply Forall_split_sequence; [|exact H].
  apply Forall_py_slice, raw_sequence_one_line.
Qed.

Lemma chunks_hold_no_line_break_witness :
  process_sequence
    (Some (lit (">id" ++ String (ascii_of_nat 13) nl ++ "AC" ++ nl ++ "GT")))
    default_max_sequence_length = Ok [lit "ACGT"]
  /\ Forall one_line [lit "ACGT"].
Proof.
  assert (H : process_sequence
                (Some (lit (">id" ++ String (ascii_of_nat 13) nl ++ "AC" ++ nl ++ "GT")))
                default_max_sequence_length = Ok [lit "ACGT"])
    by (vm_compute; reflexivity).
  split; [exact H|].
  exact (chunks_hold_no_line_break _ _ _ H).
Defined.

(** ** The driver: inputs that end the run at once, and the empty sequence *)

Lemma item_1_len {A : Type} (argv : list A) (a : A) :
  item argv 1 = Ok a -> (len argv <? 2) = false.
Proof.
  intros H. destruct argv as [|x [|y argv]]; try discriminate H.
  unfold len. cbn [length]. apply Z.ltb_ge. lia.
Qed.

(** X5. Without a file path in [argv], [main] prints the usage error and
    exits with code 1; with the path of a file that does not exist it exits
    with code 1; in both cases no request is made and no file is written. *)
Theorem fatal_input_errors (argv : list str) (fs : str -> option str)
        (now : str) (script : list str) :
  (len argv < 2 ->
   main argv fs now script = ([Print usage_error_msg], Failed (SystemExit 1)))
  /\ (forall input_file,
        item argv 1 = Ok input_file -> fs input_file = None ->
        main argv fs now script = ([], Failed (SystemExit 1))).
Proof.
  split.
  - intros H. unfold main. apply Z.ltb_lt in H. rewrite H. reflexivity.
  - intros input_file Hi Hf. unfold main. rewrite (item_1_len _ _ Hi).
    unfold bind at 1. unfold lift at 1. rewrite Hi, Hf. reflexivity.
Qed.

Lemma fatal_input_errors_witness :
  len [lit "blast_process.py"] < 2
  /\ main [lit "blast_process.py"] (fun _ => None) [] [lit "unused"]
     = ([Print usage_error_msg], Failed (SystemExit 1)).
Proof.
  split; [reflexivity|].
  apply (proj1 (fatal_input_errors [lit "blast_process.py"] (fun _ => None) []
                  [lit "unused"])).
  reflexivity.
Defined.

(** X6. When the file holds no sequence character outside its header lines
    (an empty file, blank lines, headers only), [main] makes no request,
    writes an output file with no line in it and prints its name. *)
Theorem empty_sequence_run (argv : list str) (fs : str -> option str)
        (now : str) (script : list str) (input_file content : str) :
  item argv 1 = Ok input_file ->
  fs input_file = Some content ->
  snd (read_sequence content) = [] ->
  main argv fs now script
  = ([WriteFile (output_file_name now) []; Print (output_file_name now)],
     Done tt script).
Proof.
  intros Hi Hf He. unfold main. rewrite (item_1_len _ _ Hi).
  unfold bind at 1. unfold lift at 1. rewrite Hi, Hf.
  unfold process_sequence. rewrite He. reflexivity.
Qed.

Lemma empty_sequence_run_witness :
  item [lit "blast_process.py"; lit "input.txt"] 1 = Ok (lit "input.txt")
  /\ snd (read_sequence (lit (">only a header" ++ nl ++ "   " ++ nl))) = []
  /\ main [lit "blast_process.py"; lit "input.txt"]
          (fun _ => Some (lit (">only a header" ++ nl ++ "   " ++ nl)))
          (lit "20240101_120000") []
     = ([WriteFile (output_file_name (lit "20240101_120000")) [];
         Print (output_file_name (lit "20240101_120000"))],
        Done tt []).
Proof.
  split; [reflexivity|]. split; [vm_compute; reflexivity|].
  apply (empty_sequence_run _ _ _ _ (lit "input.txt")
           (lit (">only a header" ++ nl ++ "   " ++ nl))).
  - reflexivity.
  - reflexivity.
  - vm_compute; reflexivity.
Defined.

(** ** The polling loop, answer by answer *)

Lemma poll_until_ready_events (rid : str) (script : list str) :
  Forall (poll_event rid) (fst (poll_until_ready rid script)).
Proof.
  assert (Hp : forall response, poll_event rid (status_poll rid response))
    by (intros response; left; eauto).
  assert (Hs : poll_event rid (Sleep 5)) by (right; left; reflexivity).
  assert (He : poll_event rid (Print status_error_msg)) by (right; right; reflexivity).
  induction script as [|text script IH].
  - rewrite poll_until_ready_nil. cbn. auto.
  - rewrite poll_until_ready_cons.
    destruct (status_of text) as [[|]|]; unfold followed_by; cbn [fst app]; auto.
Qed.

(** X7. The polling loop stops at the first answer that says Ready: it has
    then made one status request for each answer up to that one, has slept
    5 seconds for each Waiting answer among them, and leaves the answers
    that come after to the requests that follow. *)
Theorem poll_stops_at_first_ready (rid : str) (before : list str) (ready : str)
        (rest : list str) :
  forallb (fun text => negb (is_ready text)) before = true ->
  is_ready ready = true ->
  exists t,
    poll_until_ready rid (before ++ ready :: rest) = (t, Done tt rest)
    /\ polls t = S (length before)
    /\ slept t = 5 * Z.of_nat (length (filter is_waiting before)).
Proof.
  intros Hb Hr. induction before as [|text before IH].
  - cbn [app]. rewrite poll_until_ready_cons. unfold is_ready in Hr.
    destruct (status_of ready) as [[|]|]; try discriminate Hr.
    eexists. split; [reflexivity|]. split; reflexivity.
  - cbn [forallb] in Hb. apply andb_true_iff in Hb. destruct Hb as [Ht Hb].
    destruct (IH Hb) as (t & E & Hp & Hs). clear IH.
    cbn [app]. rewrite poll_until_ready_cons, E.
    unfold is_ready in Ht. cbn [filter]. unfold is_waiting at 1.
    destruct (status_of text) as [[|]|]; try discriminate Ht;
      unfold followed_by; cbn [fst snd app]; eexists; (split; [reflexivity|]).
    + split.
      * unfold polls in *. cbn [filter status_poll is_status_poll length].
        now rewrite Hp.
      * cbn [slept status_poll length]. rewrite Hs. lia.
    + split.
      * unfold polls in *. cbn [filter status_poll is_status_poll length].
        now rewrite Hp.
      * cbn [slept status_poll]. exact Hs.
Qed.

Lemma poll_stops_at_first_ready_witness :
  forallb (fun text => negb (is_ready text))
          [lit "Status=WAITING"; lit "busy"; lit "Status=WAITING"] = true
  /\ is_ready (lit "Status=READY") = true
  /\ exists t,
       poll_until_ready (lit "R1")
         ([lit "Status=WAITING"; lit "busy"; lit "Status=WAITING"]
            ++ lit "Status=READY" :: [lit "Status=WAITING"])
       = (t, Done tt [lit "Status=WAITING"])
       /\ polls t = 4%nat
       /\ slept t = 10.
Proof.
  split; [reflexivity|]. split; [reflexivity|].
  exact (poll_stops_at_first_ready (lit "R1")
           [lit "Status=WAITING"; lit "busy"; lit "Status=WAITING"]
           (lit "Status=READY") [lit "Status=WAITING"]
           ltac:(reflexivity) ltac:(reflexivity)).
Defined.

(** X8. As long as no answer says Ready, the polling loop goes on: on a
    script without a Ready answer it makes one status request for each
    answer and one more, whose answer it waits for, and it has slept 5
    seconds for each Waiting answer. *)
Theorem poll_goes_on_without_ready (rid : str) (script : list str) :
  forallb (fun text => negb (is_ready text)) script = true ->
  exists t,
    poll_until_ready rid script = (t ++ [status_poll rid None], Pending)
    /\ polls t = length script
    /\ slept t = 5 * Z.of_nat (length (filter is_waiting script)).
Proof.
  intros Hb. induction script as [|text script IH].
  - exists []. repeat split.
  - cbn [forallb] in Hb. apply andb_true_iff in Hb. destruct Hb as [Ht Hb].
    destruct (IH Hb) as (t & E & Hp & Hs). clear IH.
    rewrite poll_until_ready_cons, E.
    unfold is_ready in Ht. cbn [filter]. unfold is_waiting at 1.
    destruct (status_of text) as [[|]|]; try discriminate Ht;
      unfold followed_by; cbn [fst snd app].
    + exists (status_poll rid (Some text) :: Sleep 5 :: t).
      split; [reflexivity|]. split.
      * unfold polls in *. cbn [filter status_poll is_status_poll length].
        now rewrite Hp.
      * cbn [slept status_poll length]. rewrite Hs. lia.
    + exists (status_poll rid (Some text) :: Print status_error_msg :: t).
      split; [reflexivity|]. split.
      * unfold polls in *. cbn [filter status_poll is_status_poll length].
        now rewrite Hp.
      * cbn [slept status_poll]. exact Hs.
Qed.

Lemma poll_goes_on_without_ready_witness :
  forallb (fun text => negb (is_ready text))
          [lit "Status=WAITING"; lit "Status=UNKNOWN"] = true
  /\ exists t,
       poll_until_ready (lit "R1") [lit "Status=WAITING"; lit "Status=UNKNOWN"]
       = (t ++ [status_poll (lit "R1") None], Pending)
       /\ polls t = 2%nat
       /\ slept t = 5.
Proof.
  split; [reflexivity|].
  exact (poll_goes_on_without_ready (lit "R1")
           [lit "Status=WAITING"; lit "Status=UNKNOWN"] ltac:(reflexivity)).
Defined.

(** ** The loop over the chunks: what is submitted, polled and fetched *)

Lemma poll_events_summary (rid : str) (t : list event) :
  Forall (poll_event rid) t ->
  queries t = [] /\ reports t = [] /\ Forall (fun r => r = rid) (rids t).
Proof.
  induction 1 as [|e t He _ (IHq & IHr & IHi)]; [repeat split; constructor|].
  unfold queries, reports, rids in *. cbn [flat_map].
  rewrite IHq, IHr.
  destruct He as [[response ->] | [-> | ->]]; cbn; repeat split; auto.
Qed.

Lemma falsy_rid (rid : str) : falsy (Some rid) = false -> rid <> [].
Proof. intros H ->. discriminate H. Qed.

Lemma skipped_turn_summary (chunk text : str) (results script : list str) :
  let turn := ([submission chunk (Some text); Print submit_error_msg],
               Done results script) in
  queries (fst turn) = [chunk]
  /\ Forall (fun rid => rid <> []) (rids (fst turn))
  /\ (forall results' rest,
        snd turn = Done results' rest ->
        results' = results ++ reports (fst turn)
        /\ (length (reports (fst turn)) <= 1)%nat).
Proof.
  cbn [fst snd]. split; [reflexivity|]. split; [constructor|].
  intros results' rest H. injection H as <- _.
  change (reports [submission chunk (Some text); Print submit_error_msg])
    with (@nil str).
  rewrite app_nil_r. cbn [length]. split; [reflexivity | lia].
Qed.

(** One turn of the loop: the chunk is submitted once; requests about a job
    carry a job identifier that is not empty; and when the turn ends,
    [results] has grown by the report fetched, if one was. *)
Lemma process_chunk_summary (chunk : str) (results script : list str) :
  queries (fst (process_chunk chunk results script)) = [chunk]
  /\ Forall (fun rid => rid <> []) (rids (fst (process_chunk chunk results script)))
  /\ (forall results' rest,
        snd (process_chunk chunk results script) = Done results' rest ->
        results' = results ++ reports (fst (process_chunk chunk results script))
        /\ (length (reports (fst (process_chunk chunk results script))) <= 1)%nat).
Proof.
  destruct script as [|text script].
  - rewrite process_chunk_starved. cbn. repeat split; auto; discriminate.
  - rewrite process_chunk_run.
    destruct (contains (lit "RID = ") text); cbn [andb].
    2:{ now apply skipped_turn_summary. }
    destruct (falsy (Some (rid_of text))) eqn:F; cbn [negb].
    { now apply skipped_turn_summary. }
    apply falsy_rid in F.
    pose proof (poll_until_ready_events (rid_of text) script) as He.
    apply poll_events_summary in He. destruct He as (Hq & Hr & Hi).
    assert (Hi' : Forall (fun rid => rid <> []) (rids (fst (poll_until_ready (rid_of text) script)))).
    { eapply Forall_impl; [|exact Hi]. intros r ->. exact F. }
    destruct (poll_until_ready (rid_of text) script) as [t [a rest|e|]];
      cbn [fst snd] in *.
    + destruct rest as [|report rest]; cbn [fst snd];
        unfold queries, reports, rids in *; cbn [flat_map submission app];
        rewrite !flat_map_app, ?Hq, ?Hr; cbn [flat_map results_fetch app].
      * split; [reflexivity|]. split; [|discriminate].
        apply Forall_app. split; [exact Hi' | auto].
      * split; [reflexivity|]. split.
        -- apply Forall_app. split; [exact Hi' | auto].
        -- intros results' rest' H. injection H as <- <-. split; [reflexivity|].
           cbn. lia.
    + unfold queries, rids in *. cbn [flat_map submission app]. rewrite Hq.
      repeat split; auto; discriminate.
    + unfold queries, rids in *. cbn [flat_map submission app]. rewrite Hq.
      repeat split; auto; discriminate.
Qed.

(** X9. In a run of the loop over the chunks that comes to its end, each
    chunk has been submitted exactly once, in the order of the list, and
    [results] has grown by exactly the reports fetched, in the order they
    were fetched; they are at most as many as the chunks. *)
Theorem for_chunks_accounting (chunks results : list str) (script : list str)
        (t : list event) (results' rest : list str) :
  for_chunks chunks results script = (t, Done results' rest) ->
  queries t = chunks
  /\ results' = results ++ reports t
  /\ (length (reports t) <= length chunks)%nat.
Proof.
  revert results script t results' rest.
  induction chunks as [|chunk chunks IH]; intros results script t results' rest H.
  - cbn in H. injection H as <- <- _. cbn. now rewrite app_nil_r.
  - rewrite for_chunks_cons in H.
    destruct (process_chunk_summary chunk results script) as (Hq & _ & Hd).
    destruct (process_chunk chunk results script) as [t1 [r1 s1|e|]];
      try discriminate H.
    cbn [fst snd] in *. destruct (Hd r1 s1 eq_refl) as [-> Hl].
    destruct (for_chunks chunks (results ++ reports t1) s1) as [t2 o2] eqn:E.
    cbn [fst snd] in H. injection H as <- ->.
    destruct (IH _ _ _ _ _ E) as (IHq & -> & IHl).
    unfold queries, reports in *. rewrite !flat_map_app, Hq, IHq.
    rewrite length_app, <- app_assoc. cbn [app length]. repeat split. lia.
Qed.

Lemma for_chunks_accounting_witness :
  for_chunks [lit "AAAA"; lit "CCCC"] []
    [lit "no job"; lit "RID = R2"; lit "Status=READY"; lit "report 2"]
  = ([submission (lit "AAAA") (Some (lit "no job")); Print submit_error_msg;
      submission (lit "CCCC") (Some (lit "RID = R2"));
      status_poll (lit "R2") (Some (lit "Status=READY"));
      results_fetch (lit "R2") (Some (lit "report 2"))],
     Done [lit "report 2"] [])
  /\ queries [submission (lit "AAAA") (Some (lit "no job")); Print submit_error_msg;
              submission (lit "CCCC") (Some (lit "RID = R2"));
              status_poll (lit "R2") (Some (lit "Status=READY"));
              results_fetch (lit "R2") (Some (lit "report 2"))]
     = [lit "AAAA"; lit "CCCC"].
Proof.
  assert (H : for_chunks [lit "AAAA"; lit "CCCC"] []
                [lit "no job"; lit "RID = R2"; lit "Status=READY"; lit "report 2"]
              = ([submission (lit "AAAA") (Some (lit "no job")); Print submit_error_msg;
                  submission (lit "CCCC") (Some (lit "RID = R2"));
                  status_poll (lit "R2") (Some (lit "Status=READY"));
                  results_fetch (lit "R2") (Some (lit "report 2"))],
                 Done [lit "report 2"] []))
    by (vm_compute; reflexivity).
  split; [exact H|].
  exact (proj1 (for_chunks_accounting _ _ _ _ _ _ H)).
Defined.

(** X10. Whatever the service answers, the driver makes no status request
    and no fetch with an empty job identifier: a response whose "RID = " is
    followed by blanks only is handled as a failed submission. *)
Theorem no_request_with_empty_rid (chunks results script : list str) :
  Forall (fun rid => rid <> []) (rids (fst (for_chunks chunks results script))).
Proof.
  revert results script. induction chunks as [|chunk chunks IH]; intros results script.
  - cbn. constructor.
  - rewrite for_chunks_cons.
    destruct (process_chunk_summary chunk results script) as (_ & Hr & _).
    destruct (process_chunk chunk results script) as [t1 [r1 s1|e|]];
      cbn [fst snd] in *; try exact Hr.
    unfold rids in *. rewrite flat_map_app. apply Forall_app. split; [exact Hr|].
    apply IH.
Qed.

(** A response with the marker and nothing after it on the line. *)
Example blank_rid_is_a_failed_submission :
  for_chunks [lit "AAAA"] [] [lit ("RID =   " ++ nl ++ "RTOE = 30"); lit "Status=READY"]
  = ([submission (lit "AAAA") (Some (lit ("RID =   " ++ nl ++ "RTOE = 30")));
      Print submit_error_msg],
     Done [] [lit "Status=READY"]).
Proof. vm_compute; reflexivity. Qed.

(** ** submit_blast_query: reading the job identifier *)

Lemma startswith_self (sep post : str) : startswith (sep ++ post) sep = true.
Proof.
  induction sep as [|c sep IH]; [now destruct post|].
  cbn [app startswith]. now rewrite Ascii.eqb_refl, IH.
Qed.

Lemma split_go_skip (sep x post acc : str) :
  split_go sep (x ++ post) (length x) acc = split_go sep post O acc.
Proof. induction x as [|c x IH]; [reflexivity | exact IH]. Qed.

(** The first piece ends where the first occurrence of [sep] begins. *)
Lemma split_go_first (sep pre post : str) :
  sep <> [] ->
  (forall p1 p2, pre = p1 ++ p2 -> p2 <> [] ->
                 startswith (p2 ++ sep ++ post) sep = false) ->
  forall acc,
    split_go sep (pre ++ sep ++ post) O acc
    = (rev acc ++ pre) :: split_go sep post O [].
Proof.
  intros Hsep. induction pre as [|c pre IH]; intros H acc.
  - destruct sep as [|c sep']; [congruence|].
    pose proof (startswith_self (c :: sep') post) as Hs.
    cbn [app] in Hs |- *. cbn [split_go]. rewrite Hs.
    cbn [length pred]. rewrite split_go_skip. now rewrite app_nil_r.
  - pose proof (H [] (c :: pre) eq_refl ltac:(discriminate)) as Hs.
    cbn [app] in Hs |- *. cbn [split_go]. rewrite Hs.
    rewrite IH.
    + cbn [rev]. now rewrite <- app_assoc.
    + intros p1 p2 E. apply (H (c :: p1) p2). now rewrite E.
Qed.

(** Where no occurrence of [sep] begins, the text goes to the piece at hand. *)
Lemma split_go_pass (sep x y : str) :
  (forall p1 p2, x = p1 ++ p2 -> p2 <> [] -> startswith (p2 ++ y) sep = false) ->
  forall acc, split_go sep (x ++ y) O acc = split_go sep y O (rev x ++ acc).
Proof.
  induction x as [|c x IH]; intros H acc; [reflexivity|].
  pose proof (H [] (c :: x) eq_refl ltac:(discriminate)) as Hs.
  cbn [app] in Hs |- *. cbn [split_go]. rewrite Hs.
  rewrite IH.
  - cbn [rev]. now rewrite <- app_assoc.
  - intros p1 p2 E. apply (H (c :: p1) p2). now rewrite E.
Qed.

Lemma split_go_acc (sep y acc : str) :
  split_go sep y O acc
  = match split_go sep y O [] with
    | p :: ps => (rev acc ++ p) :: ps
    | [] => []
    end.
Proof.
  revert acc. induction y as [|c y IH]; intros acc.
  - cbn. now rewrite app_nil_r.
  - cbn [split_go]. destruct (startswith (c :: y) sep).
    + now rewrite app_nil_r.
    + rewrite (IH (c :: acc)), (IH [c]).
      destruct (split_go sep y O []) as [|p ps]; [reflexivity|].
      cbn [rev app]. now rewrite <- app_assoc.
Qed.

Lemma contains_false_suffix (m p1 p2 : str) :
  contains m (p1 ++ p2) = false -> contains m p2 = false.
Proof.
  intros H. destruct (contains m p2) eqn:E; [|reflexivity].
  now rewrite (contains_app_r m p1 p2 E) in H.
Qed.

Lemma contains_false_startswith (m s : str) :
  contains m s = false -> startswith s m = false.
Proof.
  intros H. destruct s; cbn [contains] in H; now apply orb_false_iff in H.
Qed.

(** Closes a goal [b1 && (b2 && ...) = false] in which one of the tests
    compares two different characters, or a character that is no whitespace
    with a blank. *)
Ltac refute_prefix :=
  repeat match goal with
         | |- (?a && ?b)%bool = false =>
             let E := fresh "E" in
             destruct a eqn:E; [cbn [andb] | reflexivity];
             try (vm_compute in E; discriminate E);
             try (apply Ascii.eqb_eq in E; subst;
                  match goal with
                  | W : py_isspace _ = false |- _ => vm_compute in W; discriminate W
                  end)
         end.

(** An occurrence of "RID = " does not begin in a text that holds none and
    end in the occurrence that follows that text. *)
Lemma no_overlap_before_marker (p2 post : str) :
  p2 <> [] -> contains (lit "RID = ") p2 = false ->
  startswith (p2 ++ lit "RID = " ++ post) (lit "RID = ") = false.
Proof.
  intros Hne H. apply contains_false_startswith in H.
  destruct p2 as [|c1 [|c2 [|c3 [|c4 [|c5 [|c6 p2]]]]]]; [congruence| | | | | |];
    cbn [lit list_ascii_of_string app startswith] in H |- *;
    refute_prefix.
  destruct p2; cbn [andb startswith] in H; discriminate H.
Qed.

Lemma forallb_tight (token p1 p2 : str) (c : ascii) :
  forallb (fun c => negb (py_isspace c)) token = true ->
  token = p1 ++ c :: p2 -> py_isspace c = false.
Proof.
  intros H ->. rewrite forallb_app in H. apply andb_true_iff in H.
  destruct H as [_ H]. cbn [forallb] in H. apply andb_true_iff in H.
  destruct H as [H _]. now apply negb_true_iff.
Qed.

(** No occurrence of "RID = " begins in a text without whitespace that a
    line feed follows. *)
Lemma no_marker_in_token (token p1 p2 rest : str) :
  forallb (fun c => negb (py_isspace c)) token = true ->
  token = p1 ++ p2 -> p2 <> [] ->
  startswith (p2 ++ newline :: rest) (lit "RID = ") = false.
Proof.
  intros Ht E Hne.
  destruct p2 as [|c1 [|c2 [|c3 [|c4 p2]]]]; [congruence| | | |];
    cbn [lit list_ascii_of_string app startswith].
  1-3: refute_prefix.
  assert (W : py_isspace c4 = false).
  { apply (forallb_tight token (p1 ++ [c1; c2; c3]) p2 c4 Ht).
    rewrite E, <- app_assoc. reflexivity. }
  refute_prefix.
Qed.

Lemma lstrip_tight (s : str) : starts_tight s -> lstrip s = s.
Proof. destruct s as [|c s]; [reflexivity|]. cbn. now intros ->. Qed.

Lemma strip_tight (token : str) :
  forallb (fun c => negb (py_isspace c)) token = true -> strip token = token.
Proof.
  intros H. unfold strip, rstrip.
  assert (H1 : starts_tight token).
  { destruct token as [|c token]; [exact I|].
    exact (forallb_tight _ [] token c H eq_refl). }
  assert (H2 : starts_tight (rev token)).
  { destruct (rev token) as [|c r] eqn:E; [exact I|]. cbn.
    apply (forallb_tight token (rev r) [] c H).
    rewrite <- (rev_involutive token), E. reflexivity. }
  rewrite (lstrip_tight token H1), (lstrip_tight (rev token) H2).
  apply rev_involutive.
Qed.

Lemma rid_of_marked (pre token rest : str) :
  contains (lit "RID = ") pre = false ->
  forallb (fun c => negb (py_isspace c)) token = true ->
  rid_of (pre ++ lit "RID = " ++ token ++ newline :: rest) = token.
Proof.
  intros Hpre Ht. unfold rid_of.
  destruct (split_go (lit "RID = ") rest O []) as [|p ps] eqn:G;
    [now apply split_go_nonempty in G|].
  (* the piece after the marker begins with the token and its line feed *)
  assert (E2 : split_go (lit "RID = ") (token ++ newline :: rest) O []
               = (token ++ newline :: p) :: ps).
  { rewrite (split_go_pass (lit "RID = ") token (newline :: rest)).
    2:{ intros p1 p2 E Hne. now apply (no_marker_in_token token p1 p2 rest). }
    rewrite app_nil_r.
    change (split_go (lit "RID = ") (newline :: rest) O (rev token))
      with (split_go (lit "RID = ") rest O (newline :: rev token)).
    rewrite (split_go_acc (lit "RID = ") rest (newline :: rev token)), G.
    cbn [rev]. rewrite rev_involutive, <- app_assoc. reflexivity. }
  (* the first line of that piece is the token *)
  assert (E3 : split_go [newline] (token ++ newline :: p) O []
               = token :: split_go [newline] p O []).
  { apply (split_go_first [newline] token p ltac:(discriminate)).
    intros p1 p2 E Hne. destruct p2 as [|c p2]; [congruence|].
    cbn [app startswith].
    assert (W : py_isspace c = false) by exact (forallb_tight token p1 p2 c Ht E).
    destruct (Ascii.eqb newline c) eqn:Ec; [|reflexivity].
    apply Ascii.eqb_eq in Ec. subst c. vm_compute in W. discriminate W. }
  rewrite (split_go_first (lit "RID = ") pre (token ++ newline :: rest)
             ltac:(discriminate)).
  2:{ intros p1 p2 E Hne. apply no_overlap_before_marker; [exact Hne|].
      rewrite E in Hpre. now apply contains_false_suffix in Hpre. }
  rewrite E2. cbn [nth]. rewrite E3. cbn [hd]. now apply strip_tight.
Qed.

(** X11. When the response holds "RID = " for the first time right before a
    token without whitespace that a line feed ends, [submit_blast_query]
    returns that token, whatever comes before and after. *)
Theorem submit_reads_the_rid (chunk pre token rest : str) (script : list str) :
  contains (lit "RID = ") pre = false ->
  forallb (fun c => negb (py_isspace c)) token = true ->
  submit_blast_query chunk (lit "nt") (lit "blastn")
    ((pre ++ lit "RID = " ++ token ++ newline :: rest) :: script)
  = ([submission chunk (Some (pre ++ lit "RID = " ++ token ++ newline :: rest))],
     Done (Some token) script).
Proof.
  intros Hpre Ht. rewrite submit_blast_query_run.
  rewrite (rid_of_marked pre token rest Hpre Ht).
  replace (contains (lit "RID = ") (pre ++ lit "RID = " ++ token ++ newline :: rest))
    with true; [reflexivity|].
  symmetry. apply contains_app_r.
  destruct (lit "RID = " ++ token ++ newline :: rest) eqn:E; [discriminate E|].
  cbn [contains]. rewrite <- E, startswith_self. reflexivity.
Qed.

Lemma submit_reads_the_rid_witness :
  contains (lit "RID = ") (lit ("<!--QBlastInfoBegin" ++ nl ++ "    ")) = false
  /\ forallb (fun c => negb (py_isspace c)) (lit "ABC123XYZ") = true
  /\ submit_blast_query (lit "ACGT") (lit "nt") (lit "blastn")
       [lit ("<!--QBlastInfoBegin" ++ nl ++ "    RID = ABC123XYZ" ++ nl
             ++ "    RTOE = 30" ++ nl ++ "QBlastInfoEnd" ++ nl ++ "-->")]
     = ([submission (lit "ACGT")
           (Some (lit ("<!--QBlastInfoBegin" ++ nl ++ "    RID = ABC123XYZ" ++ nl
                       ++ "    RTOE = 30" ++ nl ++ "QBlastInfoEnd" ++ nl ++ "-->")))],
        Done (Some (lit "ABC123XYZ")) []).
Proof.
  split; [reflexivity|]. split; [reflexivity|].
  exact (submit_reads_the_rid (lit "ACGT")
           (lit ("<!--QBlastInfoBegin" ++ nl ++ "    ")) (lit "ABC123XYZ")
           (lit ("    RTOE = 30" ++ nl ++ "QBlastInfoEnd" ++ nl ++ "-->")) []
           ltac:(reflexivity) ltac:(reflexivity)).
Defined.

(** ** write_results_to_file: pairing, early end, and what is written *)

Lemma rows_cons (chunk : str) (chunks : list str) (id : Z) (ids : list Z) :
  rows (chunk :: chunks) (id :: ids)
  = map (fun unit => (unit, id)) (units chunk) ++ rows chunks ids.
Proof. reflexivity. Qed.

(** X12. The writer pairs the chunks with the reports by position and stops
    at the shorter list.  So when the submission of a first chunk fails and
    the report of the second chunk is fetched, [results] holds that report
    alone, and the file gets the units of the first chunk with the match id
    of the second chunk's report, and no line for the second chunk. *)
Theorem skipped_chunk_shifts_reports (c1 c2 text1 report : str)
        (script rest : list str) (t2 : list event) (id : Z) (p b : float) :
  contains (lit "RID = ") text1 = false ->
  process_chunk c2 [] script = (t2, Done [report] rest) ->
  parse_blast_result_detailed report = Ok (id, p, b) ->
  for_chunks [c1; c2] [] (text1 :: script)
  = (submission c1 (Some text1) :: Print submit_error_msg :: t2,
     Done [report] rest)
  /\ write_results_to_file [c1; c2] [report] = (numbered 1 (rows [c1] [id]), None)
  /\ (forall chunks results,
        write_results_to_file chunks results
        = write_results_to_file (firstn (length results) chunks) results).
Proof.
  intros Hf Hc Hp. split; [|split].
  - rewrite for_chunks_cons, process_chunk_run, Hf. cbn [andb].
    rewrite for_chunks_cons, Hc. cbn. now rewrite app_nil_r.
  - unfold write_results_to_file.
    rewrite (write_loop_numbered [c1; c2] [report] [(id, p, b)])
      by (cbn [map]; now rewrite Hp).
    reflexivity.
  - intros chunks results. unfold write_results_to_file.
    now rewrite <- combine_firstn_r.
Qed.

Lemma skipped_chunk_shifts_reports_witness :
  contains (lit "RID = ") (lit "no job") = false
  /\ write_results_to_file [chunk25a; chunk25c] [one_record_report "100" "100" "54999"]
     = (numbered 1 (rows [chunk25a] [1]), None)
  /\ for_chunks [chunk25a; chunk25c] []
       [lit "no job"; lit ("RID = R2" ++ nl); lit "Status=READY";
        one_record_report "100" "100" "54999"]
     = ([submission chunk25a (Some (lit "no job")); Print submit_error_msg;
         submission chunk25c (Some (lit ("RID = R2" ++ nl)));
         status_poll (lit "R2") (Some (lit "Status=READY"));
         results_fetch (lit "R2") (Some (one_record_report "100" "100" "54999"))],
        Done [one_record_report "100" "100" "54999"] []).
Proof.
  assert (H1 : contains (lit "RID = ") (lit "no job") = false) by reflexivity.
  assert (H2 : process_chunk chunk25c []
                 [lit ("RID = R2" ++ nl); lit "Status=READY";
                  one_record_report "100" "100" "54999"]
               = ([submission chunk25c (Some (lit ("RID = R2" ++ nl)));
                   status_poll (lit "R2") (Some (lit "Status=READY"));
                   results_fetch (lit "R2") (Some (one_record_report "100" "100" "54999"))],
                  Done [one_record_report "100" "100" "54999"] []))
    by (vm_compute; reflexivity).
  assert (H3 : parse_blast_result_detailed (one_record_report "100" "100" "54999")
               = Ok (1, float_of_Z 100, float_of_Z 54999))
    by (vm_compute; reflexivity).
  destruct (skipped_chunk_shifts_reports chunk25a chunk25c _ _ _ _ _ _ _ _ H1 H2 H3)
    as (G1 & G2 & _).
  split; [exact H1|]. split; [exact G2 | exact G1].
Defined.

Lemma write_loop_partial (bad : str) (more : list str) (e : exn) :
  parse_blast_result_detailed bad = Raise e ->
  forall (chunks good : list str) (verdicts : list (Z * float * float)) file n,
    map parse_blast_result_detailed good = map Ok verdicts ->
    (length good < length chunks)%nat ->
    write_loop (combine chunks (good ++ bad :: more)) file n
    = (file ++ numbered n (rows chunks (map (fun v => fst (fst v)) verdicts)),
       Some e).
Proof.
  intros Hbad. induction chunks as [|chunk chunks IH];
    intros good verdicts file n H Hl; [cbn in Hl; lia|].
  destruct good as [|g good]; destruct verdicts as [|[[id p] b] verdicts];
    try discriminate H.
  - cbn [app combine write_loop]. rewrite Hbad. cbn. now rewrite app_nil_r.
  - cbn [map] in H. injection H as Hg H. cbn [length] in Hl.
    cbn [app combine write_loop]. rewrite Hg.
    destruct (chunk_parts_units chunk) as [-> _].
    rewrite write_parts, (IH good verdicts) by (assumption || lia).
    cbn [map fst]. rewrite rows_cons, numbered_app, <- app_assoc.
    unfold len. now rewrite length_map.
Qed.

(** X13. When the parser raises on a report that has a chunk at its
    position, and reads the reports before it, the writer ends with that
    exception: the file then holds the numbered lines of the chunks before
    that position and no line of a later chunk. *)
Theorem writer_stops_at_bad_report (chunks good : list str) (bad : str)
        (more : list str) (verdicts : list (Z * float * float)) (e : exn) :
  map parse_blast_result_detailed good = map Ok verdicts ->
  parse_blast_result_detailed bad = Raise e ->
  (length good < length chunks)%nat ->
  write_results_to_file chunks (good ++ bad :: more)
  = (numbered 1 (rows (firstn (length good) chunks)
                      (map (fun v => fst (fst v)) verdicts)),
     Some e).
Proof.
  intros Hg Hb Hl. unfold write_results_to_file.
  rewrite (write_loop_partial bad more e Hb chunks good verdicts [] 1 Hg Hl).
  cbn [app]. do 2 f_equal. unfold rows. f_equal.
  assert (El : length (map (fun v : Z * float * float => fst (fst v)) verdicts)
               = length good).
  { rewrite length_map, <- (length_map Ok verdicts), <- Hg. apply length_map. }
  rewrite <- El. apply combine_firstn_r.
Qed.

Lemma writer_stops_at_bad_report_witness :
  map parse_blast_result_detailed [record_without_marker] = map Ok [(-1, zero, zero)]
  /\ parse_blast_result_detailed unreadable_report = Raise ValueError
  /\ write_results_to_file [chunk25a; chunk25c; chunk25a]
       ([record_without_marker] ++ unreadable_report :: [record_without_marker])
     = ([lit ("1,AAAAAAAAAAAAAAAAAAAA,-1" ++ nl); lit ("2,AAAAA,-1" ++ nl)],
        Some ValueError).
Proof.
  assert (H1 : map parse_blast_result_detailed [record_without_marker]
               = map Ok [(-1, zero, zero)]) by (vm_compute; reflexivity).
  assert (H2 : parse_blast_result_detailed unreadable_report = Raise ValueError)
    by (vm_compute; reflexivity).
  split; [exact H1|]. split; [exact H2|].
  rewrite (writer_stops_at_bad_report [chunk25a; chunk25c; chunk25a]
             [record_without_marker] unreadable_report [record_without_marker]
             [(-1, zero, zero)] ValueError H1 H2 ltac:(cbn; lia)).
  vm_compute. reflexivity.
Defined.

Lemma units_concat (chunk : str) : concat (units chunk) = chunk.
Proof.
  destruct (split_sequence_concat chunk 20 ltac:(lia)) as (parts & E & Hc).
  destruct (chunk_parts_units chunk) as [_ E'].
  rewrite E' in E. injection E as <-. exact Hc.
Qed.

Lemma rows_concat (chunks : list str) :
  forall ids, length ids = length chunks ->
  concat (map fst (rows chunks ids)) = concat chunks.
Proof.
  induction chunks as [|chunk chunks IH]; intros [|id ids] H; try discriminate H.
  - reflexivity.
  - rewrite rows_cons, map_app, concat_app, map_map. cbn [fst concat].
    rewrite map_id, units_concat, IH; [reflexivity|].
    cbn [length] in H. lia.
Qed.

(** X14. With one readable report for each chunk, nothing of the sequence
    is lost or doubled in the file: the unit texts of its lines, joined in
    the order written, are the chunks joined in order. *)
Theorem written_units_make_up_the_chunks (chunks results : list str)
        (verdicts : list (Z * float * float)) :
  length chunks = length results ->
  map parse_blast_result_detailed results = map Ok verdicts ->
  exists rs,
    write_results_to_file chunks results = (numbered 1 rs, None)
    /\ concat (map fst rs) = concat chunks.
Proof.
  intros Hl H. exists (rows chunks (map (fun v => fst (fst v)) verdicts)).
  split.
  - unfold write_results_to_file. now rewrite (write_loop_numbered _ _ _ H).
  - apply rows_concat.
    rewrite length_map, <- (length_map Ok verdicts), <- H, length_map. now symmetry.
Qed.

Lemma written_units_make_up_the_chunks_witness :
  length [chunk25a; chunk25c]
  = length [one_record_report "100" "100" "54999"; record_without_marker]
  /\ exists rs,
       write_results_to_file [chunk25a; chunk25c]
         [one_record_report "100" "100" "54999"; record_without_marker]
       = (numbered 1 rs, None)
       /\ concat (map fst rs) = concat [chunk25a; chunk25c].
Proof.
  split; [reflexivity|].
  apply (written_units_make_up_the_chunks [chunk25a; chunk25c]
           [one_record_report "100" "100" "54999"; record_without_marker]
           [(1, float_of_Z 100, float_of_Z 54999); (-1, zero, zero)]).
  - reflexivity.
  - vm_compute; reflexivity.
Defined.

(** ** The parsers: which exceptions, and when a match is found *)

Lemma py_int_raises (s : str) (e : exn) : py_int s = Raise e -> e = ValueError.
Proof.
  unfold py_int. destruct (sign_split s) as [neg body].
  destruct (digitpart body) as [[[v n] [|c r]]|]; intros H;
    now (discriminate H || injection H as <-).
Qed.

Lemma py_float_raises (s : str) (e : exn) : py_float s = Raise e -> e = ValueError.
Proof.
  unfold py_float. destruct (sign_split s) as [neg body].
  destruct (ieq body "inf" || ieq body "infinity"); [discriminate|].
  destruct (ieq body "nan"); [discriminate|].
  destruct (float_number body) as [[m ex]|]; intros H;
    now (discriminate H || injection H as <-).
Qed.

Lemma int_true_divide_raises (a b : Z) (e : exn) :
  b <> 0 -> int_true_divide a b = Raise e -> e = OverflowError.
Proof.
  intros Hb. unfold int_true_divide.
  destruct (Z.eqb_spec b 0) as [->|_]; [congruence|].
  destruct (a =? 0); [discriminate|].
  destruct (round_quotient _ _ _); intros H;
    now (discriminate H || injection H as <-).
Qed.

Lemma contains_self_app (m r : str) : contains m (m ++ r) = true.
Proof.
  destruct (m ++ r) as [|c s] eqn:E.
  - apply app_eq_nil in E. destruct E as [-> _]. reflexivity.
  - cbn [contains]. rewrite <- E, startswith_self. reflexivity.
Qed.

Lemma startswith_app_inv (p s : str) :
  startswith s p = true -> exists r, s = p ++ r.
Proof.
  revert s. induction p as [|a p IH]; intros s H; [now exists s|].
  destruct s as [|b s]; [discriminate H|].
  cbn [startswith] in H. apply andb_true_iff in H. destruct H as [H1 H2].
  apply Ascii.eqb_eq in H1. subst b.
  destruct (IH s H2) as (r & ->). now exists r.
Qed.

(** A text that holds [m1 ++ m2] holds [m2]. *)
Lemma contains_tail (m1 m2 s : str) :
  contains (m1 ++ m2) s = true -> contains m2 s = true.
Proof.
  assert (Hs : forall s, startswith s (m1 ++ m2) = true -> contains m2 s = true).
  { intros s0 H. apply startswith_app_inv in H. destruct H as (r & ->).
    rewrite <- app_assoc. apply contains_app_r, contains_self_app. }
  induction s as [|c s IH]; intros H; cbn [contains] in H;
    apply orb_true_iff in H; destruct H as [H|H].
  - now apply Hs.
  - discriminate H.
  - now apply Hs.
  - cbn [contains]. rewrite (IH H). apply orb_true_r.
Qed.

(** On a line that holds ">", the field expression raises no IndexError. *)
Lemma field_ok (line : str) :
  contains (lit ">") line = true -> exists t, field line = Ok t.
Proof.
  intros H. unfold field, split.
  destruct (split_go_contains (lit ">") line [] ltac:(discriminate) H)
    as (a & b & rest & E).
  cbn [lit list_ascii_of_string] in E |- *. rewrite E.
  cbn [rbind item nth_error].
  destruct (split_go ["<"%char] b O []) as [|d ds] eqn:G;
    [now apply split_go_nonempty in G|].
  cbn [rbind item nth_error]. eauto.
Qed.

Lemma marker_holds_gt (line : str) :
  contains identity_marker line = true
  \/ contains align_len_marker line = true
  \/ contains bit_score_marker line = true ->
  contains (lit ">") line = true.
Proof.
  intros [H | [H | H]].
  - apply (contains_tail (lit "<Hsp_identity") (lit ">")). exact H.
  - apply (contains_tail (lit "<Hsp_align-len") (lit ">")). exact H.
  - apply (contains_tail (lit "<Hsp_bit-score") (lit ">")). exact H.
Qed.

Lemma int_field_raises (line : str) (e : exn) :
  contains (lit ">") line = true -> int_field line = Raise e -> e = ValueError.
Proof.
  intros H. unfold int_field. destruct (field_ok line H) as (t & ->).
  cbn [rbind]. apply py_int_raises.
Qed.

Lemma float_field_raises (line : str) (e : exn) :
  contains (lit ">") line = true -> float_field line = Raise e -> e = ValueError.
Proof.
  intros H. unfold float_field. destruct (field_ok line H) as (t & ->).
  cbn [rbind]. apply py_float_raises.
Qed.

Lemma for_each_raises {S A : Type} (P : exn -> Prop) (body : S -> A -> result S) :
  (forall st a e, body st a = Raise e -> P e) ->
  forall l st e, for_each body l st = Raise e -> P e.
Proof.
  intros Hb. induction l as [|a l IH]; intros st e H; [discriminate H|].
  cbn [for_each] in H. destruct (body st a) as [st'|e'] eqn:B; cbn [rbind] in H.
  - now apply (IH st').
  - injection H as <-. now apply (Hb st a).
Qed.

Lemma detailed_body_raises (st : Detailed.locals) (line : str) (e : exn) :
  Detailed.body st line = Raise e -> e = ValueError \/ e = OverflowError.
Proof.
  unfold Detailed.body. intros H.
  pose proof (marker_holds_gt (strip line)) as Hgt.
  destruct (contains identity_marker (strip line)).
  { destruct (int_field (strip line)) as [v|e'] eqn:F; [discriminate H|].
    injection H as <-. left. apply (int_field_raises _ _ (Hgt ltac:(auto)) F). }
  destruct (contains align_len_marker (strip line)).
  { destruct (int_field (strip line)) as [v|e'] eqn:F; [discriminate H|].
    injection H as <-. left. apply (int_field_raises _ _ (Hgt ltac:(auto)) F). }
  destruct (contains bit_score_marker (strip line)); [|discriminate H].
  destruct (float_field (strip line)) as [b|e'] eqn:F.
  2:{ injection H as <-. left. apply (float_field_raises _ _ (Hgt ltac:(auto)) F). }
  cbn [rbind] in H.
  destruct (Detailed.align_len st) as [a|]; [|discriminate H].
  rewrite usable_positive in H. destruct (Z.ltb_spec 0 a); [|discriminate H].
  destruct (int_true_divide (Detailed.identity st) a) as [q|e'] eqn:D;
    [discriminate H|].
  injection H as <-. right.
  apply (int_true_divide_raises (Detailed.identity st) a); [lia | exact D].
Qed.

Lemma simple_body_raises (st : Simple.locals) (line : str) (e : exn) :
  Simple.body st line = Raise e ->
  e = ValueError \/ e = OverflowError \/ e = UnboundLocalError.
Proof.
  unfold Simple.body. intros H.
  pose proof (marker_holds_gt (strip line)) as Hgt.
  destruct (contains identity_marker (strip line)) eqn:E1.
  { destruct (int_field (strip line)) as [v|e'] eqn:F.
    2:{ injection H as <-. left. apply (int_field_raises _ _ (Hgt ltac:(auto)) F). }
    cbn [rbind] in H.
    destruct (contains align_len_marker (strip line)); cbn [rbind] in H.
    - destruct (contains bit_score_marker (strip line)); [|discriminate H].
      destruct (float_field (strip line)) as [b|e'] eqn:G.
      2:{ injection H as <-. left.
          apply (float_field_raises _ _ (Hgt ltac:(auto)) G). }
      cbn [rbind Simple.align_len Simple.identity] in H.
      destruct (Z.gtb_spec v 0); [|discriminate H].
      cbn [rbind] in H.
      destruct (int_true_divide v v) as [q|e'] eqn:D; [discriminate H|].
      injection H as <-. right. left.
      apply (int_true_divide_raises v v); [lia | exact D].
    - destruct (contains bit_score_marker (strip line)); [|discriminate H].
      destruct (float_field (strip line)) as [b|e'] eqn:G.
      2:{ injection H as <-. left.
          apply (float_field_raises _ _ (Hgt ltac:(auto)) G). }
      cbn [rbind Simple.align_len Simple.identity] in H.
      destruct (Z.gtb_spec (Simple.align_len st) 0); [|discriminate H].
      cbn [rbind] in H.
      destruct (int_true_divide v (Simple.align_len st)) as [q|e'] eqn:D;
        [discriminate H|].
      injection H as <-. right. left.
      apply (int_true_divide_raises v (Simple.align_len st)); [lia | exact D]. }
  cbn [rbind] in H.
  destruct (contains align_len_marker (strip line)) eqn:E2.
  { destruct (int_field (strip line)) as [v|e'] eqn:F.
    2:{ injection H as <-. left. apply (int_field_raises _ _ (Hgt ltac:(auto)) F). }
    cbn [rbind] in H.
    destruct (contains bit_score_marker (strip line)); [|discriminate H].
    destruct (float_field (strip line)) as [b|e'] eqn:G.
    2:{ injection H as <-. left.
        apply (float_field_raises _ _ (Hgt ltac:(auto)) G). }
    cbn [rbind Simple.align_len Simple.identity] in H.
    destruct (Z.gtb_spec v 0); [|discriminate H].
    destruct (Simple.identity st) as [i|]; cbn [rbind] in H.
    - destruct (int_true_divide i v) as [q|e'] eqn:D; [discriminate H|].
      injection H as <-. right. left.
      apply (int_true_divide_raises i v); [lia | exact D].
    - injection H as <-. auto. }
  cbn [rbind] in H.
  destruct (contains bit_score_marker (strip line)); [|discriminate H].
  destruct (float_field (strip line)) as [b|e'] eqn:G.
  2:{ injection H as <-. left. apply (float_field_raises _ _ (Hgt ltac:(auto)) G). }
  cbn [rbind] in H.
  destruct (Z.gtb_spec (Simple.align_len st) 0); [|discriminate H].
  destruct (Simple.identity st) as [i|]; cbn [rbind] in H.
  - destruct (int_true_divide i (Simple.align_len st)) as [q|e'] eqn:D;
      [discriminate H|].
    injection H as <-. right. left.
    apply (int_true_divide_raises i (Simple.align_len st)); [lia | exact D].
  - injection H as <-. auto.
Qed.

(** X15. The only exceptions of [parse_blast_result_detailed] are
    ValueError (a field that is no number) and OverflowError (a quotient too
    large for a float); [parse_blast_result] can raise UnboundLocalError as
    well (a bit-score line before any identity line).  Neither raises
    IndexError or ZeroDivisionError: a line with a marker has a ">", and the
    division is made for a positive alignment length only. *)
Theorem parser_exceptions (xml_result : str) (e : exn) :
  (parse_blast_result_detailed xml_result = Raise e ->
   e = ValueError \/ e = OverflowError)
  /\ (parse_blast_result xml_result = Raise e ->
      e = ValueError \/ e = OverflowError \/ e = UnboundLocalError).
Proof.
  split.
  - unfold parse_blast_result_detailed.
    destruct (negb (contains iterations_marker xml_result)); [discriminate|].
    destruct (for_each Detailed.body (splitlines xml_result) Detailed.init)
      as [st|e'] eqn:F; [discriminate|].
    cbn [rbind]. intros H. injection H as <-.
    exact (for_each_raises _ _ detailed_body_raises _ _ _ F).
  - unfold parse_blast_result.
    destruct (negb (contains iterations_marker xml_result)); [discriminate|].
    destruct (for_each Simple.body (splitlines xml_result) Simple.init)
      as [st|e'] eqn:F; [discriminate|].
    cbn [rbind]. intros H. injection H as <-.
    exact (for_each_raises _ _ simple_body_raises _ _ _ F).
Qed.

Lemma parser_exceptions_witness :
  parse_blast_result_detailed unreadable_report = Raise ValueError
  /\ (ValueError = ValueError \/ ValueError = OverflowError).
Proof.
  assert (H : parse_blast_result_detailed unreadable_report = Raise ValueError)
    by (vm_compute; reflexivity).
  split; [exact H|].
  exact (proj1 (parser_exceptions unreadable_report ValueError) H).
Defined.

Lemma body_bit_matches (st st' : Detailed.locals) (line : str) :
  Detailed.body st line = Ok st' -> is_bit_score_line line = true ->
  Detailed.matches st'
  = if qualifies (Detailed.percent_identity st') (Detailed.bit_score st')
    then Detailed.matches st ++ [1] else Detailed.matches st.
Proof.
  unfold Detailed.body, is_bit_score_line, kind. intros H K.
  destruct (contains identity_marker (strip line)); [discriminate K|].
  destruct (contains align_len_marker (strip line)); [discriminate K|].
  destruct (contains bit_score_marker (strip line)); [|discriminate K].
  destruct (float_field (strip line)) as [b|e]; [|discriminate H].
  cbn [rbind] in H.
  destruct (if Detailed.usable (Detailed.align_len st)
            then q <- int_true_divide (Detailed.identity st)
                        match Detailed.align_len st with
                        | Some a => a
                        | None => 0
                        end ;; Ok (float_mul q (float_of_Z 100))
            else Ok (Detailed.percent_identity st)) as [p|e];
    [|discriminate H].
  cbn [rbind] in H. injection H as <-. reflexivity.
Qed.

(** After a line, there is a match if there was one before, or if the line
    is a bit-score line at which the record qualifies. *)
Lemma body_matches (st st' : Detailed.locals) (line : str) :
  Detailed.body st line = Ok st' ->
  (Detailed.matches st' <> []
   <-> Detailed.matches st <> []
       \/ (is_bit_score_line line = true
           /\ qualifies (Detailed.percent_identity st') (Detailed.bit_score st') = true)).
Proof.
  intros B. destruct (is_bit_score_line line) eqn:K.
  - rewrite (body_bit_matches st st' line B K).
    destruct (qualifies (Detailed.percent_identity st') (Detailed.bit_score st')).
    + split; [auto|]. intros _. now destruct (Detailed.matches st).
    + split; [auto|]. intros [H | [_ H]]; [exact H | discriminate H].
  - destruct (body_keeps_scores st st' line B K) as (_ & _ & ->).
    split; [auto|]. intros [H | [H _]]; [exact H | discriminate H].
Qed.

Lemma qualifies_somewhere_cons (st0 st1 : Detailed.locals) (line : str)
      (lines : list str) :
  Detailed.body st0 line = Ok st1 ->
  (qualifies_somewhere st0 (line :: lines)
   <-> (is_bit_score_line line = true
        /\ qualifies (Detailed.percent_identity st1) (Detailed.bit_score st1) = true)
       \/ qualifies_somewhere st1 lines).
Proof.
  intros B. split.
  - intros (pre & l & post & st & E & K & F & Q).
    destruct pre as [|x pre]; cbn [app] in E; injection E as <- E.
    + left. cbn [app for_each] in F. rewrite B in F. cbn [rbind] in F.
      injection F as <-. auto.
    + right. cbn [app for_each] in F. rewrite B in F. cbn [rbind] in F.
      exists pre, l, post, st. auto.
  - intros [[K Q] | (pre & l & post & st & E & K & F & Q)].
    + exists [], line, lines, st1. cbn [app for_each]. rewrite B. auto.
    + exists (line :: pre), l, post, st. cbn [app for_each]. rewrite B, E. auto.
Qed.

Lemma scan_matches (lines : list str) :
  forall st0 st,
    for_each Detailed.body lines st0 = Ok st ->
    (Detailed.matches st <> []
     <-> Detailed.matches st0 <> [] \/ qualifies_somewhere st0 lines).
Proof.
  induction lines as [|line lines IH]; intros st0 st F.
  - cbn in F. injection F as <-. split; [auto|].
    intros [H | (pre & l & post & st & E & _)]; [exact H|].
    destruct pre; discriminate E.
  - cbn [for_each] in F.
    destruct (Detailed.body st0 line) as [st1|e] eqn:B; [|discriminate F].
    cbn [rbind] in F.
    rewrite (IH st1 st F), (body_matches st0 st1 line B),
      (qualifies_somewhere_cons st0 st1 line lines B).
    tauto.
Qed.

(** X16. When [parse_blast_result_detailed] returns on a report with the
    iterations marker, the match id is 1 exactly when the report has a
    bit-score line right after which percent identity is above 99 and bit
    score above 54998; lines that come later cannot undo a match. *)
Theorem match_found_iff_a_record_qualifies (xml_result : str) (id : Z) (p b : float) :
  contains iterations_marker xml_result = true ->
  parse_blast_result_detailed xml_result = Ok (id, p, b) ->
  (id = 1 <-> qualifies_somewhere Detailed.init (splitlines xml_result)).
Proof.
  intros Hm H. unfold parse_blast_result_detailed in H. rewrite Hm in H.
  cbn [negb] in H.
  destruct (for_each Detailed.body (splitlines xml_result) Detailed.init)
    as [st|e] eqn:F; [|discriminate H].
  cbn [rbind] in H. injection H as <- _ _.
  pose proof (scan_matches _ _ _ F) as S. cbn [Detailed.init Detailed.matches] in S.
  destruct (Detailed.matches st) as [|m ms].
  - split; [discriminate|]. intros Q.
    assert (G : @nil Z <> []) by (apply S; now right). congruence.
  - split; [|reflexivity]. intros _.
    destruct (proj1 S ltac:(discriminate)) as [G|G]; [congruence | exact G].
Qed.

Lemma match_found_iff_a_record_qualifies_witness :
  contains iterations_marker carried_over_report = true
  /\ parse_blast_result_detailed carried_over_report
     = Ok (1, float_of_Z 100, float_of_Z 10)
  /\ qualifies_somewhere Detailed.init (splitlines carried_over_report).
Proof.
  assert (H1 : contains iterations_marker carried_over_report = true)
    by (vm_compute; reflexivity).
  assert (H2 : parse_blast_result_detailed carried_over_report
               = Ok (1, float_of_Z 100, float_of_Z 10))
    by (vm_compute; reflexivity).
  split; [exact H1|]. split; [exact H2|].
  exact (proj1 (match_found_iff_a_record_qualifies _ _ _ _ H1 H2) eq_refl).
Defined.

(** On a line with one field at most, the simple loop body raises what the
    detailed one raises, or finds [identity] unset. *)
Lemma bodies_raise_alike (s : Simple.locals) (d : Detailed.locals) (line : str)
      (e : exn) :
  same_locals s d -> (markers_in line <= 1)%nat ->
  Simple.body s line = Raise e ->
  e = UnboundLocalError \/ Detailed.body d line = Raise e.
Proof.
  intros (Hm & Hp & Hb & Ha & Hi) Hone H.
  pose proof (markers_in_strip line) as Hs. unfold markers_in in Hs at 1.
  unfold Simple.body in H. unfold Detailed.body.
  destruct (contains identity_marker (strip line)) eqn:E1;
    destruct (contains align_len_marker (strip line)) eqn:E2;
    destruct (contains bit_score_marker (strip line)) eqn:E3;
    cbn [Nat.add] in Hs; try lia; clear Hs.
  - destruct (int_field (strip line)) as [v|e']; cbn [rbind] in H |- *;
      [discriminate H | injection H as <-; now right].
  - destruct (int_field (strip line)) as [v|e']; cbn [rbind] in H |- *;
      [discriminate H | injection H as <-; now right].
  - cbn [rbind] in H.
    destruct (float_field (strip line)) as [b|e']; cbn [rbind] in H |- *;
      [|injection H as <-; now right].
    assert (Hu : Detailed.usable (Detailed.align_len d) = (Simple.align_len s >? 0)
                 /\ (Detailed.usable (Detailed.align_len d) = true ->
                     match Detailed.align_len d with Some a => a | None => 0 end
                     = Simple.align_len s)).
    { destruct Ha as [Ha | [Ha Ha']]; rewrite Ha; cbn [Detailed.usable].
      - split; [|reflexivity].
        destruct (Z.eqb_spec (Simple.align_len s) 0) as [->|N]; reflexivity.
      - rewrite Ha'. split; [reflexivity | discriminate]. }
    destruct Hu as [Hu1 Hu2]. rewrite Hu1.
    destruct (Simple.align_len s >? 0) eqn:G; [|discriminate H].
    rewrite Hu2 by (now rewrite Hu1).
    destruct (Simple.identity s) as [i|] eqn:I; cbn [rbind] in H.
    + destruct Hi as [Hi | [Hi _]]; [|discriminate Hi].
      injection Hi as <-.
      destruct (int_true_divide i (Simple.align_len s)) as [q|e'];
        cbn [rbind] in H |- *; [discriminate H | injection H as <-; now right].
    + injection H as <-. now left.
  - discriminate H.
Qed.

Lemma scans_raise_alike (lines : list str) :
  Forall (fun line => (markers_in line <= 1)%nat) lines ->
  forall s d e,
    same_locals s d ->
    for_each Simple.body lines s = Raise e ->
    e = UnboundLocalError \/ for_each Detailed.body lines d = Raise e.
Proof.
  induction 1 as [|line lines Hl _ IH]; intros s d e R H; [discriminate H|].
  cbn [for_each] in H |- *.
  destruct (Simple.body s line) as [s1|e1] eqn:B; cbn [rbind] in H.
  - destruct (bodies_agree s s1 d line R Hl B) as (d1 & -> & R1).
    cbn [rbind]. now apply (IH s1 d1).
  - injection H as <-.
    destruct (bodies_raise_alike s d line e1 R Hl B) as [-> | ->]; auto.
Qed.

(** X17. On a report with at most one field marker on each line,
    [parse_blast_result] raises only what [parse_blast_result_detailed]
    raises too, or UnboundLocalError (it reads [identity] before any
    identity line has set it, where the detailed parser starts from 0). *)
Theorem simple_parser_fails_alike (xml_result : str) (e : exn) :
  one_field_a_line xml_result ->
  parse_blast_result xml_result = Raise e ->
  e = UnboundLocalError \/ parse_blast_result_detailed xml_result = Raise e.
Proof.
  intros Hone H. unfold parse_blast_result in H. unfold parse_blast_result_detailed.
  destruct (negb (contains iterations_marker xml_result)); [discriminate H|].
  destruct (for_each Simple.body (splitlines xml_result) Simple.init)
    as [s|e'] eqn:F; cbn [rbind] in H; [discriminate H|].
  injection H as <-.
  destruct (scans_raise_alike _ Hone _ _ _ same_locals_init F) as [-> | ->]; auto.
Qed.

Lemma simple_parser_fails_alike_witness :
  one_field_a_line unreadable_report
  /\ parse_blast_result unreadable_report = Raise ValueError
  /\ (ValueError = UnboundLocalError
      \/ parse_blast_result_detailed unreadable_report = Raise ValueError).
Proof.
  assert (H1 : one_field_a_line unreadable_report).
  { unfold one_field_a_line.
    repeat (constructor; [vm_compute; repeat constructor|]).
    vm_compute. constructor. }
  assert (H2 : parse_blast_result unreadable_report = Raise ValueError)
    by (vm_compute; reflexivity).
  split; [exact H1|]. split; [exact H2|].
  exact (simple_parser_fails_alike unreadable_report ValueError H1 H2).
Defined.

(** ** The whole run *)

(** The outcomes of [main], case by case. *)
Lemma main_run (argv : list str) (fs : str -> option str) (now : str)
      (script : list str) :
  main argv fs now script
  = if len argv <? 2 then ([Print usage_error_msg], Failed (SystemExit 1))
    else
      match item argv 1 with
      | Raise e => ([], Failed e)
      | Ok input_file =>
          match process_sequence (fs input_file) default_max_sequence_length with
          | Raise e => ([], Failed e)
          | Ok chunks =>
              match for_chunks chunks [] script with
              | (t, Done results rest) =>
                  match write_results_to_file chunks results with
                  | (file, None) =>
                      (t ++ [WriteFile (output_file_name now) file;
                             Print (output_file_name now)], Done tt rest)
                  | (file, Some e) =>
                      (t ++ [WriteFile (output_file_name now) file], Failed e)
                  end
              | (t, Failed e) => (t, Failed e)
              | (t, Pending) => (t, Pending)
              end
          end
      end.
Proof.
  unfold main. destruct (len argv <? 2); [reflexivity|].
  unfold bind at 1. unfold lift at 1.
  destruct (item argv 1) as [input_file|e]; [|reflexivity].
  unfold bind at 1. unfold lift at 1.
  destruct (process_sequence (fs input_file) default_max_sequence_length)
    as [chunks|e]; [|reflexivity].
  unfold bind at 1.
  destruct (for_chunks chunks [] script) as [t [results rest|e|]]; try reflexivity.
  fold (output_file_name now).
  destruct (write_results_to_file chunks results) as [file [e|]]; reflexivity.
Qed.

Lemma process_chunk_writes (chunk : str) (results script : list str) :
  written (fst (process_chunk chunk results script)) = [].
Proof.
  assert (Hp : forall rid t, Forall (poll_event rid) t -> written t = []).
  { intros rid t. induction 1 as [|e t He _ IH]; [reflexivity|].
    unfold written in *. cbn [flat_map]. rewrite IH.
    destruct He as [[response ->] | [-> | ->]]; reflexivity. }
  destruct script as [|text script]; [reflexivity|].
  rewrite process_chunk_run.
  destruct (contains (lit "RID = ") text && negb (falsy (Some (rid_of text))));
    [|reflexivity].
  pose proof (Hp _ _ (poll_until_ready_events (rid_of text) script)) as Hw.
  destruct (poll_until_ready (rid_of text) script) as [t [a rest|e|]];
    cbn [fst] in *.
  - destruct rest; cbn [fst]; unfold written in *; cbn [flat_map submission app];
      now rewrite flat_map_app, Hw.
  - unfold written in *. cbn [flat_map submission app]. exact Hw.
  - unfold written in *. cbn [flat_map submission app]. exact Hw.
Qed.

(** The loop over the chunks writes no file, and submits a chunk at most
    once, in the order of the list. *)
Lemma for_chunks_summary (chunks results script : list str) :
  written (fst (for_chunks chunks results script)) = []
  /\ exists k, queries (fst (for_chunks chunks results script)) = firstn k chunks.
Proof.
  revert results script. induction chunks as [|chunk chunks IH]; intros results script.
  - split; [reflexivity | now exists O].
  - rewrite for_chunks_cons.
    pose proof (process_chunk_writes chunk results script) as Hw.
    destruct (process_chunk_summary chunk results script) as (Hq & _).
    destruct (process_chunk chunk results script) as [t1 [r1 s1|e|]];
      cbn [fst] in *.
    + destruct (IH r1 s1) as (IHw & k & IHq). unfold written, queries in *.
      rewrite !flat_map_app, Hw, Hq, IHw, IHq. split; [reflexivity|].
      now exists (S k).
    + split; [exact Hw | now exists 1%nat].
    + split; [exact Hw | now exists 1%nat].
Qed.

Lemma process_sequence_count (input_file : option str) (chunks : list str) :
  process_sequence input_file default_max_sequence_length = Ok chunks ->
  (length chunks <= 5)%nat.
Proof.
  destruct input_file as [content|]; [|discriminate].
  unfold process_sequence.
  rewrite py_slice_prefix by discriminate.
  set (kept := firstn (Z.to_nat default_max_sequence_length)
                      (snd (read_sequence content))).
  rewrite split_sequence_pieces by reflexivity. intros H. injection H as <-.
  assert (Hn : 0 <= len kept) by (unfold len; lia).
  pose proof (range_len_nonneg (len kept) default_chunk_size
                ltac:(reflexivity) Hn) as Hr.
  unfold str in *. rewrite pieces_length.
  rewrite (range_len_ceiling (len kept) default_chunk_size
             ltac:(reflexivity) Hn) in *.
  assert (Hk : len kept <= 5000).
  { unfold kept, len. rewrite length_firstn.
    change (Z.to_nat default_max_sequence_length) with 5000%nat. lia. }
  assert ((len kept + default_chunk_size - 1) / default_chunk_size <= 5).
  { change 5 with ((5000 + 1000 - 1) / 1000).
    apply Z.div_le_mono; unfold default_chunk_size; lia. }
  lia.
Qed.

(** X18. Whatever the arguments, the file and the answers of the service
    are, a run of [main] submits at most five sequences. *)
Theorem at_most_five_submissions (argv : list str) (fs : str -> option str)
        (now : str) (script : list str) :
  (length (queries (fst (main argv fs now script))) <= 5)%nat.
Proof.
  rewrite main_run. destruct (len argv <? 2); [cbn; lia|].
  destruct (item argv 1) as [input_file|e]; [|cbn; lia].
  destruct (process_sequence (fs input_file) default_max_sequence_length)
    as [chunks|e] eqn:P; [|cbn; lia].
  apply process_sequence_count in P.
  destruct (for_chunks_summary chunks [] script) as (_ & k & Hq).
  assert (Hl : (length (queries (fst (for_chunks chunks [] script))) <= 5)%nat).
  { rewrite Hq, length_firstn. lia. }
  destruct (for_chunks chunks [] script) as [t [results rest|e|]];
    cbn [fst] in *; try exact Hl.
  destruct (write_results_to_file chunks results) as [file [e|]]; cbn [fst];
    unfold queries in *; rewrite flat_map_app, length_app;
    cbn [flat_map length app]; lia.
Qed.

(** X19. A run of [main] writes at most one file, named
    [blast_results_<now>.txt]; while the run waits for an answer of the
    service, or when it ended in the loop over the chunks, no file has been
    written. *)
Theorem one_output_file (argv : list str) (fs : str -> option str)
        (now : str) (script : list str) :
  (written (fst (main argv fs now script)) = []
   \/ exists file,
        written (fst (main argv fs now script)) = [(output_file_name now, file)])
  /\ (snd (main argv fs now script) = Pending ->
      written (fst (main argv fs now script)) = []).
Proof.
  rewrite main_run. destruct (len argv <? 2); [split; [now left | reflexivity]|].
  destruct (item argv 1) as [input_file|e]; [|split; [now left | reflexivity]].
  destruct (process_sequence (fs input_file) default_max_sequence_length)
    as [chunks|e]; [|split; [now left | reflexivity]].
  destruct (for_chunks_summary chunks [] script) as (Hw & _).
  destruct (for_chunks chunks [] script) as [t [results rest|e|]];
    cbn [fst snd] in *; try (split; [now left | intros _; exact Hw]).
  destruct (write_results_to_file chunks results) as [file [e|]]; cbn [fst snd];
    (split; [right; exists file | discriminate]);
    unfold written in *; now rewrite flat_map_app, Hw.
Qed.

Lemma one_output_file_witness :
  snd (main [lit "blast_process.py"; lit "input.txt"] (fun _ => Some thirty)
            (lit "20240101_120000") [lit "RID = R1"; lit "Status=WAITING"])
  = Pending
  /\ written (fst (main [lit "blast_process.py"; lit "input.txt"]
                        (fun _ => Some thirty) (lit "20240101_120000")
                        [lit "RID = R1"; lit "Status=WAITING"])) = [].
Proof.
  assert (H : snd (main [lit "blast_process.py"; lit "input.txt"]
                        (fun _ => Some thirty) (lit "20240101_120000")
                        [lit "RID = R1"; lit "Status=WAITING"]) = Pending)
    by (vm_compute; reflexivity).
  split; [exact H|].
  exact (proj2 (one_output_file _ _ _ _) H).
Defined.
